(** * GatewayStorage (klasa, src/lib/settings/GatewayStorage.js)

    A shallow embedding of the settings gateway: its constructor, its three
    read accessors ([sqlSchema], [provider], [defaults]) and the asynchronous
    initialisation protocol ([init], [initSchema], [initTable]).

    JavaScript values are dynamically typed, so the embedding carries a small
    universe of JS values.  Asynchronous methods are embedded as finite
    interaction programs: every [await] on a collaborator (fs-nextra, the
    provider) is a node whose continuation receives the settlement of the
    awaited promise, every read or write of a field of [this] is a node of
    its own, so that the state of the gateway at each suspension point can be
    observed. *)

From Stdlib Require Import String List ZArith Bool Sorted.
From stdpp Require Import base option gmap strings list fin_maps.
Import ListNotations.
Local Open Scope string_scope.
Local Open Scope list_scope.
Set Warnings "-register-all".
Set Default Proof Using "Type".

(** ** JavaScript values *)

(** The values that flow through the gateway: what JSON.parse may return,
    what a provider call may settle with, and the value of a default.
    Numbers are kept integral; nothing in the gateway computes with them.
    An object is the list of its own enumerable string-keyed properties in
    enumeration order. *)
Inductive JSValue : Type :=
| JUndefined
| JNull
| JBool (b : bool)
| JNum (n : Z)
| JStr (s : string)
| JArr (items : list JSValue)
| JObj (props : list (string * JSValue)).

Abbreviation JSObject := (list (string * JSValue)).

(** ToBoolean, as applied by [!hasTable]. *)
Definition truthy (v : JSValue) : bool :=
  match v with
  | JUndefined | JNull => false
  | JBool b => b
  | JNum n => negb (n =? 0)%Z
  | JStr s => negb (String.eqb s EmptyString)
  | JArr _ | JObj _ => true
  end.

(** [o[k]] for an own property. *)
Fixpoint obj_get (o : JSObject) (k : string) : option JSValue :=
  match o with
  | [] => None
  | (k', v) :: rest => if String.eqb k' k then Some v else obj_get rest k
  end.

(** CreateDataProperty: an existing key keeps its place and takes the new
    value, a new key is appended. *)
Fixpoint obj_set (o : JSObject) (k : string) (v : JSValue) : JSObject :=
  match o with
  | [] => [(k, v)]
  | (k', v') :: rest =>
      if String.eqb k' k then (k', v) :: rest else (k', v') :: obj_set rest k v
  end.

(** CopyDataProperties, the [...source] of an object literal: each property
    of [source] is defined on [target] in enumeration order. *)
Definition obj_spread (target source : JSObject) : JSObject :=
  fold_left (fun o kv => obj_set o (fst kv) (snd kv)) source target.

Definition obj_keys (o : JSObject) : list string := map fst o.

(** What a throw or a rejected promise carries. *)
Inductive Exn : Type :=
| Error (message : string)      (* new Error(message) *)
| TypeError (message : string)  (* member access on null *)
| External (reason : string).   (* raised by fs-nextra, a provider or SchemaFolder *)

(** A column definition is the two-element array [[name, sqlType]]. *)
Abbreviation Column := (string * string)%type.

(** ** The schema tree *)

Module SchemaFolder.

(** Modelled from the spec: SchemaFolder and its pieces are required from
    ./SchemaFolder, which is not under src/.  The spec (section 3) gives the
    contract: a folder is an ordered mapping of name to child node, a piece is
    a leaf with a declared type, a default value and a backend column-type
    string. *)
Inductive Node : Type :=
| Piece (type : string) (default : JSValue) (sql : string)
| Folder (children : list (string * Node)).

(** The root of a schema tree is a folder: its ordered children. *)
Abbreviation t := (list (string * Node)).

(** Modelled from the spec: [sqlSchema] is the ordered sequence of column
    definitions, one per piece reachable in the subtree, recursively
    flattened. *)
Fixpoint nodeSqlSchema (name : string) (n : Node) : list Column :=
  match n with
  | Piece _ _ sql => [(name, sql)]
  | Folder children =>
      (fix go (cs : list (string * Node)) : list Column :=
         match cs with
         | [] => []
         | (k, c) :: rest => nodeSqlSchema k c ++ go rest
         end) children
  end.

Definition sqlSchema (s : t) : list Column :=
  flat_map (fun kc => nodeSqlSchema (fst kc) (snd kc)) s.

(** Modelled from the spec: [defaults] is the recursive mapping of name to
    each child's current default value; a sub-folder maps to its own
    defaults. *)
Fixpoint nodeDefault (n : Node) : JSValue :=
  match n with
  | Piece _ d _ => d
  | Folder children =>
      JObj ((fix go (cs : list (string * Node)) (acc : JSObject) : JSObject :=
               match cs with
               | [] => acc
               | (k, c) :: rest => go rest (obj_set acc k (nodeDefault c))
               end) children [])
  end.

Definition defaults (s : t) : JSObject :=
  fold_left (fun o kc => obj_set o (fst kc) (nodeDefault (snd kc))) s [].

(** The leaf pieces of a tree in declaration order, each with the key it is
    declared under, its declared type and its column type. *)
Fixpoint nodePieces (name : string) (n : Node) : list (string * string * string) :=
  match n with
  | Piece ty _ sql => [(name, ty, sql)]
  | Folder children =>
      (fix go (cs : list (string * Node)) : list (string * string * string) :=
         match cs with
         | [] => []
         | (k, c) :: rest => nodePieces k c ++ go rest
         end) children
  end.

Fixpoint pieces (s : t) : list (string * string * string) :=
  match s with
  | [] => []
  | (k, c) :: rest => nodePieces k c ++ pieces rest
  end.

(** The column a leaf piece stands for. *)
Definition column_of (piece : string * string * string) : Column :=
  (fst (fst piece), snd piece).

(** Modelled from the spec: building the tree from a schema definition (the
    constructor of SchemaFolder, not under src/).  The definition is a JSON
    object "describing the schema tree declaratively (folder/piece nesting,
    types, defaults)"; the spec's scenario declares a piece as
    [{ type: "string", default: "!" }].  Here an entry that carries a string
    [type] is a piece, any other object entry is a folder, and the column type
    of a piece is its [sql] entry when there is one, its declared type
    otherwise.  The gateway below does not depend on this reading: it takes
    the constructor as a parameter, and this one instantiates it in the
    scenarios. *)
Fixpoint buildNode (v : JSValue) : option Node :=
  match v with
  | JObj props =>
      match obj_get props "type" with
      | Some (JStr ty) =>
          Some (Piece ty
                  (match obj_get props "default" with Some d => d | None => JNull end)
                  (match obj_get props "sql" with Some (JStr c) => c | _ => ty end))
      | _ =>
          Some (Folder
                  ((fix go (ps : JSObject) : list (string * Node) :=
                      match ps with
                      | [] => []
                      | (k, v') :: rest =>
                          match buildNode v' with
                          | Some n => (k, n) :: go rest
                          | None => go rest
                          end
                      end) props))
      end
  | _ => None
  end.

Definition build (definition : JSValue) : Exn + t :=
  match buildNode definition with
  | Some (Folder children) => inr children
  | _ => inl (External "invalid schema definition")
  end.

End SchemaFolder.

(** ** The client and the gateway object *)

(** A provider instance, identified by its handle.  The gateway never looks
    inside a provider: it calls [hasTable] and [createTable] on it. *)
Abbreviation Provider := nat.

(** The parts of KlasaClient the gateway reads: [client.providers] (a Map
    from provider name to provider), [client.options.providers.default] and
    [client.clientBaseDir]. *)
Record KlasaClient : Type := {
  providers : gmap string Provider;
  options_providers_default : string;
  clientBaseDir : string
}.

(** The fields of a GatewayStorage instance.  [type], [providerName],
    [baseDir] and [filePath] are defined read-only by the constructor;
    [schema] ([None] is null) and [ready] are plain assignable fields.
    [client] is a reference to the shared client object, which the accessors
    below therefore take as it currently is. *)
Record GatewayStorage : Type := {
  type : string;
  providerName : string;
  baseDir : string;
  filePath : string;
  schema : option SchemaFolder.t;
  ready : bool
}.

Definition set_ready (b : bool) (g : GatewayStorage) : GatewayStorage :=
  {| type := type g; providerName := providerName g; baseDir := baseDir g;
     filePath := filePath g; schema := schema g; ready := b |}.

Definition set_schema (s : SchemaFolder.t) (g : GatewayStorage) : GatewayStorage :=
  {| type := type g; providerName := providerName g; baseDir := baseDir g;
     filePath := filePath g; schema := Some s; ready := ready g |}.

(** [provider || this.client.options.providers.default]: an omitted argument
    and the empty string are both falsy. *)
Definition or_default (provider : option string) (fallback : string) : string :=
  match provider with
  | Some name => if String.eqb name EmptyString then fallback else name
  | None => fallback
  end.

(** The class defines no [toString]; the template literal in [init] gets
    Object.prototype.toString. *)
Definition toString (g : GatewayStorage) : string := "[object Object]".

(** ** Asynchronous methods *)

(** The calls the gateway awaits on its collaborators. *)
Inductive IOCall : Type :=
| EnsureDir (dir : string)                                  (* fs.ensureDir *)
| ReadJSON (path : string)                                  (* fs.readJSON *)
| OutputJSONAtomic (path : string) (data : JSValue)         (* fs.outputJSONAtomic *)
| HasTable (p : Provider) (table : string)                  (* provider.hasTable *)
| CreateTable (p : Provider) (table : string) (columns : list Column).

(** The settlement of an awaited promise: rejected with a reason or
    fulfilled with a value. *)
Abbreviation Settled := (Exn + JSValue)%type.

(** The body of an async method.  [This] reads the gateway as it is now,
    [TheClient] reads the shared client as it is now, [SetReady] and
    [SetSchema] are the two assignments the class makes, and [Call] issues a
    call and suspends until its promise settles. *)
Inductive Async (R : Type) : Type :=
| Return (r : R)
| Throw (e : Exn)
| This (k : GatewayStorage -> Async R)
| TheClient (k : KlasaClient -> Async R)
| SetReady (b : bool) (k : Async R)
| SetSchema (s : SchemaFolder.t) (k : Async R)
| Call (c : IOCall) (k : Settled -> Async R).

Arguments Return {R} r.
Arguments Throw {R} e.
Arguments This {R} k.
Arguments TheClient {R} k.
Arguments SetReady {R} b k.
Arguments SetSchema {R} s k.
Arguments Call {R} c k.

Fixpoint Async_bind {A B : Type} (f : A -> Async B) (p : Async A) : Async B :=
  match p with
  | Return r => f r
  | Throw e => Throw e
  | This k => This (fun g => Async_bind f (k g))
  | TheClient k => TheClient (fun c => Async_bind f (k c))
  | SetReady b k => SetReady b (Async_bind f k)
  | SetSchema s k => SetSchema s (Async_bind f k)
  | Call c k => Call c (fun r => Async_bind f (k r))
  end.

#[export] Instance Async_ret : MRet Async := fun _ r => Return r.
#[export] Instance Async_mbind : MBind Async := fun _ _ f p => Async_bind f p.

(** [await promise]: a rejection is rethrown in the awaiting method. *)
Definition await (c : IOCall) : Async JSValue :=
  Call c (fun r => match r with inl e => Throw e | inr v => Return v end).

(** A synchronous expression that may throw. *)
Definition lift {R : Type} (r : Exn + R) : Async R :=
  match r with inl e => Throw e | inr v => Return v end.

(** ** Running a method against an environment *)

(** What was observable at one suspension point: the gateway as it stood
    while the call was pending, the call, and how it settled. *)
Record Event : Type := {
  pending_this : GatewayStorage;
  call : IOCall;
  settled : Settled
}.

Record Outcome (W R : Type) : Type := {
  world : W;
  gateway : GatewayStorage;
  trace : list Event;
  result : Exn + R
}.

Arguments world {W R} o.
Arguments gateway {W R} o.
Arguments trace {W R} o.
Arguments result {W R} o.

Definition observed {W R : Type} (ev : Event) (o : Outcome W R) : Outcome W R :=
  {| world := world o; gateway := gateway o; trace := ev :: trace o; result := result o |}.

(** An environment is any deterministic machine that settles calls: [W] is
    its state (file system, backends, the faults it will inject).  [run]
    executes one method to completion, with no other code interleaved. *)
Fixpoint run {W R : Type} (handle : W -> IOCall -> W * Settled) (client : KlasaClient)
    (p : Async R) (w : W) (g : GatewayStorage) : Outcome W R :=
  match p with
  | Return r => {| world := w; gateway := g; trace := []; result := inr r |}
  | Throw e => {| world := w; gateway := g; trace := []; result := inl e |}
  | This k => run handle client (k g) w g
  | TheClient k => run handle client (k client) w g
  | SetReady b k => run handle client k w (set_ready b g)
  | SetSchema s k => run handle client k w (set_schema s g)
  | Call c k =>
      let wr := handle w c in
      observed {| pending_this := g; call := c; settled := snd wr |}
        (run handle client (k (snd wr)) (fst wr) g)
  end.

(** The calls a trace issued, in order. *)
Definition calls (t : list Event) : list IOCall := map call t.

Definition isCreateTable (c : IOCall) : bool :=
  match c with CreateTable _ _ _ => true | _ => false end.

Definition isFileWrite (c : IOCall) : bool :=
  match c with OutputJSONAtomic _ _ => true | _ => false end.

(** Sequencing of two runs: the second starts where the first resolved; a
    rejection of the first ends the whole. *)
Definition sequel {W A B : Type} (o : Outcome W A)
    (next : A -> W -> GatewayStorage -> Outcome W B) : Outcome W B :=
  match result o with
  | inl e => {| world := world o; gateway := gateway o; trace := trace o; result := inl e |}
  | inr a =>
      let o' := next a (world o) (gateway o) in
      {| world := world o'; gateway := gateway o';
         trace := trace o ++ trace o'; result := result o' |}
  end.

(** A method body that never assigns false to [ready]. *)
Inductive Steady {R : Type} : Async R -> Prop :=
| Steady_Return r : Steady (Return r)
| Steady_Throw e : Steady (Throw e)
| Steady_This k : (forall g, Steady (k g)) -> Steady (This k)
| Steady_TheClient k : (forall c, Steady (k c)) -> Steady (TheClient k)
| Steady_SetReady k : Steady k -> Steady (SetReady true k)
| Steady_SetSchema s k : Steady k -> Steady (SetSchema s k)
| Steady_Call c k : (forall r, Steady (k r)) -> Steady (Call c k).

(** The calls that go to the file system. *)
Definition isFileCall (c : IOCall) : bool :=
  match c with
  | EnsureDir _ | ReadJSON _ | OutputJSONAtomic _ _ => true
  | HasTable _ _ | CreateTable _ _ _ => false
  end.

(** How often a trace calls [createTable], and how often it writes a file. *)
Definition createTableCalls (t : list Event) : nat :=
  length (filter (fun c => isCreateTable c = true) (calls t)).

Definition fileWrites (t : list Event) : nat :=
  length (filter (fun c => isFileWrite c = true) (calls t)).

Definition this : Async GatewayStorage := This Return.
Definition theClient : Async KlasaClient := TheClient Return.

(** [object.name] where [object] may be null. *)
Definition member {A : Type} (object : option A) (name : string) : Async A :=
  match object with
  | Some o => Return o
  | None => Throw (TypeError ("Cannot read property '" +:+ name +:+ "' of null"))
  end.

(** ** The read accessors *)

(** [get sqlSchema()]:
    [return [['id', 'VARCHAR(19) NOT NULL UNIQUE PRIMARY KEY'], ...this.schema.sqlSchema];]
    The member access [this.schema.sqlSchema] throws while [schema] is null. *)
Definition sqlSchema (g : GatewayStorage) : Exn + list Column :=
  match schema g with
  | Some s =>
      inr (("id", "VARCHAR(19) NOT NULL UNIQUE PRIMARY KEY") :: SchemaFolder.sqlSchema s)
  | None => inl (TypeError "Cannot read property 'sqlSchema' of null")
  end.

(** [get provider()]:
    [return this.client.providers.get(this.providerName) || null;]
    [Map#get] gives undefined for an unregistered name, which [|| null] turns
    into null ([None]). *)
Definition provider (client : KlasaClient) (g : GatewayStorage) : option Provider :=
  providers client !! providerName g.

(** [get defaults()]:
    [return { ...this.schema.defaults, default: true };]
    The literal copies the properties of [this.schema.defaults] into a fresh
    object and then defines [default]. *)
Definition defaults (g : GatewayStorage) : Exn + JSObject :=
  match schema g with
  | Some s => inr (obj_set (obj_spread [] (SchemaFolder.defaults s)) "default" (JBool true))
  | None => inl (TypeError "Cannot read property 'defaults' of null")
  end.

(** ** The class *)

Section Class.

(** [path.resolve] of Node and the constructor of SchemaFolder are taken as
    they come: the first is a library function, the second is required from a
    file that is not under src/ and may throw on a definition it rejects. *)
Variable resolve : string -> string -> string.
Variable newSchemaFolder : JSValue -> Exn + SchemaFolder.t.

(** [constructor(client, type, provider)]:
    [providerName = provider || this.client.options.providers.default],
    [baseDir = resolve(this.client.clientBaseDir, 'bwd')],
    [filePath = resolve(this.baseDir, `${this.type}_Schema.json`)],
    [this.schema = null; this.ready = false;] *)
Definition constructor (client : KlasaClient) (type : string) (provider : option string)
  : GatewayStorage :=
  let baseDir := resolve (clientBaseDir client) "bwd" in
  {| type := type;
     providerName := or_default provider (options_providers_default client);
     baseDir := baseDir;
     filePath := resolve baseDir (type +:+ "_Schema.json");
     schema := None;
     ready := false |}.

(** [async initSchema(defaultSchema)]:
    [await fs.ensureDir(this.baseDir);]
    [const schema = await fs.readJSON(this.filePath)]
    [  .catch(() => fs.outputJSONAtomic(this.filePath, defaultSchema).then(() => defaultSchema));]
    [this.schema = new SchemaFolder(this.client, this, schema, null, '');]
    [return this.schema;]
    The handler of [catch] runs on any rejection of the read. *)
Definition initSchema (defaultSchema : JSValue) : Async SchemaFolder.t :=
  g ← this;
  await (EnsureDir (baseDir g));;
  g ← this;
  definition ← Call (ReadJSON (filePath g)) (fun r =>
    match r with
    | inr parsed => Return parsed
    | inl _ =>
        g ← this;
        await (OutputJSONAtomic (filePath g) defaultSchema);;
        Return defaultSchema
    end);
  s ← lift (newSchemaFolder definition);
  SetSchema s (Return s).

(** [async initTable()]:
    [const hasTable = await this.provider.hasTable(this.type);]
    [if (!hasTable) await this.provider.createTable(this.type, this.sqlSchema);]
    [this.provider] is evaluated anew for each call, and the callee is looked
    up before the arguments are evaluated. *)
Definition initTable : Async unit :=
  c ← theClient;
  g ← this;
  p ← member (provider c g) "hasTable";
  hasTable ← await (HasTable p (type g));
  if truthy hasTable then Return tt
  else
    c ← theClient;
    g ← this;
    p ← member (provider c g) "createTable";
    columns ← lift (sqlSchema g);
    await (CreateTable p (type g) columns);;
    Return tt.

(** [async init(defaultSchema)]:
    [if (this.ready) throw new Error(`[INIT] ${this} has already initialized.`);]
    [this.ready = true;]
    [await this.initSchema(defaultSchema);]
    [await this.initTable();] *)
Definition init (defaultSchema : JSValue) : Async unit :=
  g ← this;
  if ready g
  then Throw (Error ("[INIT] " +:+ toString g +:+ " has already initialized."))
  else SetReady true (initSchema defaultSchema;; initTable).

(** The states a gateway goes through in its lifetime: as constructed, as it
    stands while a call of [init] is suspended, and as a call of [init]
    leaves it, under any environment and any state of the client. *)
Inductive Lifetime : GatewayStorage -> Prop :=
| Lifetime_new client type provider :
    Lifetime (constructor client type provider)
| Lifetime_pending (W : Type) (handle : W -> IOCall -> W * Settled) client w definition g ev :
    Lifetime g ->
    In ev (trace (run handle client (init definition) w g)) ->
    Lifetime (pending_this ev)
| Lifetime_settled (W : Type) (handle : W -> IOCall -> W * Settled) client w definition g :
    Lifetime g ->
    Lifetime (gateway (run handle client (init definition) w g)).

End Class.

(** ** A reference environment *)

(** What a path holds: text that JSON.parse accepts, seen as the value it
    parses to, or text it rejects. *)
Inductive FileContent : Type :=
| Parsable (value : JSValue)
| Unparsable (text : string).

(** A file system with directories and files, which may be read-only, and
    the backing stores of the providers: the tables each one holds.  A
    provider with no store is unreachable: its calls reject. *)
Record World : Type := {
  dirs : gset string;
  files : gmap string FileContent;
  readOnly : bool;
  stores : gmap Provider (gmap string (list Column))
}.

Definition with_dir (d : string) (w : World) : World :=
  {| dirs := {[d]} ∪ dirs w; files := files w; readOnly := readOnly w; stores := stores w |}.

Definition with_file (path : string) (c : FileContent) (w : World) : World :=
  {| dirs := dirs w; files := <[path := c]> (files w); readOnly := readOnly w;
     stores := stores w |}.

Definition with_table (p : Provider) (table : string) (columns : list Column) (w : World)
  : World :=
  {| dirs := dirs w; files := files w; readOnly := readOnly w;
     stores := <[p := <[table := columns]> (default ∅ (stores w !! p))]> (stores w) |}.

(** How this environment settles a call.  A write keeps the written value
    as it is, which is what the file reads back as when JSON represents the
    value exactly; [settleJSON] below is the same environment with the write
    serialised. *)
Definition settle (w : World) (c : IOCall) : World * Settled :=
  match c with
  | EnsureDir d =>
      if bool_decide (d ∈ dirs w) then (w, inr JUndefined)
      else if readOnly w then (w, inl (External "EROFS: read-only file system, mkdir"))
      else (with_dir d w, inr JUndefined)
  | ReadJSON path =>
      match files w !! path with
      | Some (Parsable v) => (w, inr v)
      | Some (Unparsable _) => (w, inl (External "SyntaxError: Unexpected token in JSON"))
      | None => (w, inl (External "ENOENT: no such file or directory, open"))
      end
  | OutputJSONAtomic path v =>
      if readOnly w then (w, inl (External "EROFS: read-only file system, open"))
      else (with_file path (Parsable v) w, inr JUndefined)
  | HasTable p table =>
      match stores w !! p with
      | Some tables => (w, inr (JBool (bool_decide (is_Some (tables !! table)))))
      | None => (w, inl (External "ECONNREFUSED"))
      end
  | CreateTable p table columns =>
      match stores w !! p with
      | Some tables =>
          if bool_decide (is_Some (tables !! table))
          then (w, inl (External "table already exists"))
          else (with_table p table columns w, inr JUndefined)
      | None => (w, inl (External "ECONNREFUSED"))
      end
  end.

Definition without_file (path : string) (w : World) : World :=
  {| dirs := dirs w; files := delete path (files w); readOnly := readOnly w;
     stores := stores w |}.

(** ** What a written definition reads back as *)

(** [JSON.parse(JSON.stringify(v))] below the top level: a property whose
    value is undefined is left out, an undefined array item becomes null,
    everything else is kept (the keys of an object are distinct, as they are
    in JavaScript). *)
Fixpoint jsonValue (v : JSValue) : JSValue :=
  match v with
  | JUndefined => JNull
  | JArr items =>
      JArr ((fix go (l : list JSValue) : list JSValue :=
               match l with
               | [] => []
               | item :: rest => jsonValue item :: go rest
               end) items)
  | JObj props =>
      JObj ((fix go (l : JSObject) : JSObject :=
               match l with
               | [] => []
               | (k, JUndefined) :: rest => go rest
               | (k, x) :: rest => (k, jsonValue x) :: go rest
               end) props)
  | other => other
  end.

(** What [outputJSONAtomic(path, data)] leaves at [path]: the text
    [JSON.stringify(data)], seen as what it parses to.  For undefined there is
    no JSON text and the file does not parse. *)
Definition persisted (data : JSValue) : FileContent :=
  match data with
  | JUndefined => Unparsable "undefined"
  | _ => Parsable (jsonValue data)
  end.

(** The reference environment with the write as fs-nextra does it: the file
    holds the serialisation of the value, not the value.  Every other call is
    settled as by [settle], which is this environment for values that JSON
    represents as they are ([persisted data = Parsable data]). *)
Definition settleJSON (w : World) (c : IOCall) : World * Settled :=
  match c with
  | OutputJSONAtomic path data =>
      if readOnly w then (w, inl (External "EROFS: read-only file system, open"))
      else (with_file path (persisted data) w, inr JUndefined)
  | _ => settle w c
  end.

(** [client.providers.set(name, p)]: a provider is registered. *)
Definition register (name : string) (p : Provider) (client : KlasaClient) : KlasaClient :=
  {| providers := <[name := p]> (providers client);
     options_providers_default := options_providers_default client;
     clientBaseDir := clientBaseDir client |}.

(** ** The shape of a run *)

(** The place of a call in the protocol of [init]. *)
Definition rank (c : IOCall) : nat :=
  match c with
  | EnsureDir _ => 0
  | ReadJSON _ => 1
  | OutputJSONAtomic _ _ => 2
  | HasTable _ _ => 3
  | CreateTable _ _ _ => 4
  end.

(** A call that concerns the gateway's own directory, file and table: the
    arguments are those the gateway computes from its fields at the time of
    the call. *)
Definition ownEvent (client : KlasaClient) (defaultSchema : JSValue) (ev : Event) : Prop :=
  match call ev with
  | EnsureDir d => d = baseDir (pending_this ev)
  | ReadJSON path => path = filePath (pending_this ev)
  | OutputJSONAtomic path data => path = filePath (pending_this ev) /\ data = defaultSchema
  | HasTable p table =>
      provider client (pending_this ev) = Some p /\ table = type (pending_this ev)
  | CreateTable p table columns =>
      provider client (pending_this ev) = Some p /\ table = type (pending_this ev)
      /\ sqlSchema (pending_this ev) = inr columns
  end.

(** The fields the constructor defines read-only. *)
Definition sameIdentity (g g' : GatewayStorage) : Prop :=
  type g' = type g /\ providerName g' = providerName g
  /\ baseDir g' = baseDir g /\ filePath g' = filePath g.

(** ** Arguments and extendables *)

(** What a [throw] of these classes carries: the value a language returned,
    or the TypeError of a member access on null. *)
Inductive Thrown : Type :=
| Thrown_value (v : JSValue)
| Thrown_TypeError (message : string).

(** A language, as far as the arguments use it: [language.get(key, ...args)]. *)
Record Language : Type := { get : string -> list string -> JSValue }.

(** [(msg.language || this.client.languages.default).get]: the language of
    the message when it has one, the default language of the client
    otherwise; the member access throws when both are missing. *)
Definition languageOf (msgLanguage defaultLanguage : option Language) : Thrown + Language :=
  match msgLanguage with
  | Some l => inr l
  | None =>
      match defaultLanguage with
      | Some l => inr l
      | None => inl (Thrown_TypeError "Cannot read property 'get' of null")
      end
  end.

Module GuildArgument.

Section Run.

(** [this.constructor.regex.snowflake.test], a static regular expression of
    the Argument class of klasa, and the guild objects of discord.js are taken
    as they come. *)
Variable snowflake : string -> bool.
Variable Guild : Type.

(** [run(arg, possible, msg)]:
    [const guild = this.constructor.regex.snowflake.test(arg) ? this.client.guilds.get(arg) : null;]
    [if (guild) return guild;]
    [throw (msg.language || this.client.languages.default).get('RESOLVER_INVALID_GUILD', possible.name);]
    [guilds] is [this.client.guilds], [defaultLanguage] is
    [this.client.languages.default], [possibleName] is [possible.name] and
    [msgLanguage] is [msg.language]. *)
Definition run (guilds : gmap string Guild) (defaultLanguage : option Language)
    (arg : string) (possibleName : string) (msgLanguage : option Language) : Thrown + Guild :=
  match (if snowflake arg then guilds !! arg else None) with
  | Some guild => inr guild
  | None =>
      match languageOf msgLanguage defaultLanguage with
      | inl t => inl t
      | inr l => inl (Thrown_value (get l "RESOLVER_INVALID_GUILD" [possibleName]))
      end
  end.

End Run.

End GuildArgument.

Module RegexArgument.

(** A regular expression without the global or sticky flag, so that [exec]
    depends on its argument only: [exec] gives the match array (a capture
    that did not take part is undefined) or null, [source] is what
    [toString()] gives. *)
Record RegExp : Type := {
  exec : string -> option (list (option string));
  source : string
}.

Record Possible : Type := { name : string; regex : RegExp }.

(** [run(arg, possible, msg)]:
    [const results = possible.regex.exec(arg);]
    [if (results !== null) return results;]
    [throw (msg.language || this.client.languages.default)]
    [  .get('RESOLVER_INVALID_REGEX_MATCH', possible.name, possible.regex.toString());] *)
Definition run (defaultLanguage : option Language) (arg : string) (possible : Possible)
    (msgLanguage : option Language) : Thrown + list (option string) :=
  match exec (regex possible) arg with
  | Some results => inr results
  | None =>
      match languageOf msgLanguage defaultLanguage with
      | inl t => inl t
      | inr l =>
          inl (Thrown_value
                 (get l "RESOLVER_INVALID_REGEX_MATCH"
                    [name possible; source (regex possible)]))
      end
  end.

End RegexArgument.

Module ChannelExtendable.

(** [permissions.has(name)]. *)
Record Permissions : Type := { has : string -> bool }.

Section Extend.

Variable Member : Type.

(** The parts of a channel the getter reads: [guild] is [None] for a channel
    without guild and otherwise holds [guild.me], which may be null;
    [permissionsFor] may return null. *)
Record Channel : Type := {
  guild : option (option Member);
  readable : bool;
  permissionsFor : option Member -> option Permissions
}.

(** [get extend()]:
    [return !this.guild || (this.readable && this.permissionsFor(this.guild.me).has('SEND_MESSAGES'));] *)
Definition extend (c : Channel) : Thrown + bool :=
  match guild c with
  | None => inr true
  | Some me =>
      if readable c
      then match permissionsFor c me with
           | Some permissions => inr (has permissions "SEND_MESSAGES")
           | None => inl (Thrown_TypeError "Cannot read property 'has' of null")
           end
      else inr false
  end.

End Extend.

End ChannelExtendable.

(** ** What the accessors do on a gateway *)

(** Both schema accessors throw a TypeError. *)
Definition accessorsThrow (g : GatewayStorage) : Prop :=
  (exists message, sqlSchema g = inl (TypeError message))
  /\ (exists message, defaults g = inl (TypeError message)).

(** Both schema accessors return. *)
Definition accessorsReturn (g : GatewayStorage) : Prop :=
  (exists columns, sqlSchema g = inr columns) /\ (exists o, defaults g = inr o).

(** ** Scenarios *)

Module Scenario.

(** A plain reading of [path.resolve] for an absolute base and one relative
    segment. *)
Definition resolve (base segment : string) : string := base +:+ "/" +:+ segment.

Definition json : Provider := 1.

Definition client : KlasaClient :=
  {| providers := {[ "json" := json ]};
     options_providers_default := "json";
     clientBaseDir := "/bot" |}.

(** The gateway of the spec's scenario: domain "guilds", default provider. *)
Definition guilds : GatewayStorage := constructor resolve client "guilds" None.

(** [{ prefix: { type: "string", default: "!" } }] *)
Definition defaultSchema : JSValue :=
  JObj [("prefix", JObj [("type", JStr "string"); ("default", JStr "!")])].

(** First boot: empty writable disk, reachable provider without tables. *)
Definition firstBoot : World :=
  {| dirs := ∅; files := ∅; readOnly := false; stores := {[ json := ∅ ]} |}.

(** A disk that cannot be written to. *)
Definition readOnlyDisk : World :=
  {| dirs := ∅; files := ∅; readOnly := true; stores := {[ json := ∅ ]} |}.

(** A writable disk whose provider is unreachable. *)
Definition backendDown : World :=
  {| dirs := ∅; files := ∅; readOnly := false; stores := ∅ |}.


(** A schema that declares a piece named [default] next to a piece and a
    folder. *)
Definition shadowing : SchemaFolder.t :=
  [ ("prefix", SchemaFolder.Piece "string" (JStr "!") "TEXT");
    ("default", SchemaFolder.Piece "boolean" (JBool false) "BOOLEAN");
    ("mod", SchemaFolder.Folder
              [("role", SchemaFolder.Piece "role" JNull "VARCHAR(19)")]) ].

Definition boot (w : World) (g : GatewayStorage) : Outcome World unit :=
  run settle client (init SchemaFolder.build defaultSchema) w g.

(** The disk and the backend as the first boot leaves them. *)
Definition afterFirstBoot : World := world (boot firstBoot guilds).

(** A client on which no provider has been registered yet. *)
Definition bare : KlasaClient :=
  {| providers := ∅; options_providers_default := "json"; clientBaseDir := "/bot" |}.

(** A read-only disk on which the base directory exists but not the
    definition file. *)
Definition lockedDir : World :=
  {| dirs := {[ "/bot/bwd" ]}; files := ∅; readOnly := true; stores := {[ json := ∅ ]} |}.

(** A definition file that parses to something SchemaFolder.build rejects. *)
Definition foreignFile : World :=
  {| dirs := {[ "/bot/bwd" ]};
     files := {[ "/bot/bwd/guilds_Schema.json" := Parsable (JNum 42) ]};
     readOnly := false;
     stores := {[ json := ∅ ]} |}.

(** An environment without state: the definition file reads as the default
    schema, every other call resolves with undefined. *)
Definition lax (w : unit) (c : IOCall) : unit * Settled :=
  match c with
  | ReadJSON _ => (tt, inr defaultSchema)
  | _ => (tt, inr JUndefined)
  end.

(** A snowflake test for the scenarios: 17 to 19 decimal digits. *)
Definition isDigit (a : Ascii.ascii) : bool :=
  (48 <=? Ascii.nat_of_ascii a)%nat && (Ascii.nat_of_ascii a <=? 57)%nat.

Definition snowflake (arg : string) : bool :=
  (17 <=? String.length arg)%nat && (String.length arg <=? 19)%nat
  && forallb isDigit (list_ascii_of_string arg).

(** A cache of guilds (here numbered) with one entry under a snowflake and
    one under a key that is not a snowflake. *)
Definition cachedGuilds : gmap string nat :=
  {[ "123456789012345678" := 1%nat; "klasa" := 2%nat ]}.

Definition english : Language :=
  {| get := fun key args => JArr (JStr key :: map JStr args) |}.

(** [/^(\d+)d$/], as far as the scenarios use it. *)
Definition days : RegexArgument.RegExp :=
  {| RegexArgument.exec := fun arg =>
       if String.eqb arg "7d" then Some [Some "7d"; Some "7"] else None;
     RegexArgument.source := "/^(\d+)d$/" |}.

(** A guild channel that cannot be read and whose guild has no [me]. *)
Definition hiddenChannel : ChannelExtendable.Channel nat :=
  {| ChannelExtendable.guild := Some None;
     ChannelExtendable.readable := false;
     ChannelExtendable.permissionsFor := fun _ => None |}.

(** A readable guild channel on which the bot may send messages. *)
Definition openChannel : ChannelExtendable.Channel nat :=
  {| ChannelExtendable.guild := Some (Some 1%nat);
     ChannelExtendable.readable := true;
     ChannelExtendable.permissionsFor := fun _ =>
       Some {| ChannelExtendable.has := fun name => String.eqb name "SEND_MESSAGES" |} |}.

(** Boot on the environment that serialises what it writes. *)
Definition bootJSON (w : World) (g : GatewayStorage) : Outcome World unit :=
  run settleJSON client (init SchemaFolder.build defaultSchema) w g.

(** [{ prefix: { type: "string", default: undefined } }]: a default that
    JSON does not represent as it is. *)
Definition lossySchema : JSValue :=
  JObj [("prefix", JObj [("type", JStr "string"); ("default", JUndefined)])].

End Scenario.

(** * Properties *)

(** ** Objects *)

Lemma obj_get_set_eq (o : JSObject) k v : obj_get (obj_set o k v) k = Some v.
Proof.
  induction o as [|[k' v'] o IH]; simpl.
  - by rewrite String.eqb_refl.
  - destruct (String.eqb k' k) eqn:E; simpl; rewrite E; [done | exact IH].
Qed.

Lemma obj_get_set_ne (o : JSObject) k k' v :
  k <> k' -> obj_get (obj_set o k v) k' = obj_get o k'.
Proof.
  intros Hne. induction o as [|[k0 v0] o IH]; simpl.
  - by apply String.eqb_neq in Hne as ->.
  - destruct (String.eqb k0 k) eqn:E; simpl.
    + apply String.eqb_eq in E as ->.
      by apply String.eqb_neq in Hne as ->.
    + by rewrite IH.
Qed.

Lemma obj_get_None (o : JSObject) k : obj_get o k = None <-> ~ In k (obj_keys o).
Proof.
  induction o as [|[k' v'] o IH]; simpl; [tauto|].
  destruct (String.eqb k' k) eqn:E.
  - apply String.eqb_eq in E. split; [done | intros H; exfalso; apply H; by left].
  - apply String.eqb_neq in E. rewrite IH. tauto.
Qed.

Lemma obj_set_fresh (o : JSObject) k v :
  ~ In k (obj_keys o) -> obj_set o k v = o ++ [(k, v)].
Proof.
  induction o as [|[k' v'] o IH]; simpl; [done|].
  intros Hk. destruct (String.eqb k' k) eqn:E.
  - apply String.eqb_eq in E. exfalso. apply Hk. by left.
  - rewrite IH; [done | tauto].
Qed.

Lemma obj_set_keys_present (o : JSObject) k v :
  In k (obj_keys o) -> obj_keys (obj_set o k v) = obj_keys o.
Proof.
  induction o as [|[k' v'] o IH]; simpl; [done|].
  intros Hk. destruct (String.eqb k' k) eqn:E; simpl; [done|].
  apply String.eqb_neq in E. rewrite IH; [done|]. by destruct Hk.
Qed.

Lemma obj_set_keys (o : JSObject) k v :
  obj_keys (obj_set o k v)
  = match obj_get o k with Some _ => obj_keys o | None => obj_keys o ++ [k] end.
Proof.
  destruct (obj_get o k) eqn:E.
  - apply obj_set_keys_present. destruct (in_dec string_dec k (obj_keys o)) as [|Hn]; [done|].
    apply obj_get_None in Hn. congruence.
  - apply obj_get_None in E. rewrite obj_set_fresh by done.
    unfold obj_keys. by rewrite map_app.
Qed.

Lemma obj_set_NoDup (o : JSObject) k v :
  List.NoDup (obj_keys o) -> List.NoDup (obj_keys (obj_set o k v)).
Proof.
  intros Hnd. rewrite obj_set_keys. destruct (obj_get o k) eqn:E; [done|].
  apply obj_get_None in E. apply NoDup_ListNoDup. apply NoDup_ListNoDup in Hnd.
  apply NoDup_app. split_and!; [done | | apply NoDup_singleton].
  intros x Hx Hx'%list_elem_of_In. apply E. simpl in Hx'. destruct Hx' as [->|[]].
  by apply list_elem_of_In.
Qed.

(** Spreading an object with distinct keys into a fresh literal copies it. *)
Lemma obj_spread_app (source target : JSObject) :
  List.NoDup (obj_keys (target ++ source)) -> obj_spread target source = target ++ source.
Proof.
  unfold obj_spread. revert target.
  induction source as [|[k v] source IH]; intros target Hnd; simpl.
  - by rewrite app_nil_r.
  - assert (Hfresh : ~ In k (obj_keys target)).
    { unfold obj_keys in *. rewrite map_app in Hnd. simpl in Hnd.
      apply NoDup_remove_2 in Hnd. intros Hin. apply Hnd. apply in_or_app. by left. }
    rewrite obj_set_fresh by done.
    replace (target ++ (k, v) :: source) with ((target ++ [(k, v)]) ++ source)
      by (by rewrite <- app_assoc).
    apply IH. by rewrite <- app_assoc.
Qed.

Lemma obj_spread_copy (source : JSObject) :
  List.NoDup (obj_keys source) -> obj_spread [] source = source.
Proof. intros Hnd. by rewrite obj_spread_app. Qed.

(** ** The schema tree *)

Lemma defaults_fold_NoDup (s : SchemaFolder.t) (acc : JSObject) :
  List.NoDup (obj_keys acc) ->
  List.NoDup (obj_keys
    (fold_left (fun o kc => obj_set o (fst kc) (SchemaFolder.nodeDefault (snd kc))) s acc)).
Proof.
  revert acc. induction s as [|[k c] s IH]; intros acc Hnd; simpl; [done|].
  apply IH. by apply obj_set_NoDup.
Qed.

(** The defaults of a folder name each key once. *)
Lemma SchemaFolder_defaults_NoDup (s : SchemaFolder.t) :
  List.NoDup (obj_keys (SchemaFolder.defaults s)).
Proof. apply defaults_fold_NoDup. constructor. Qed.

(** Induction on schema nodes that reaches the children of a folder. *)
Fixpoint Node_nested_ind (P : SchemaFolder.Node -> Prop)
    (HP : forall ty d sql, P (SchemaFolder.Piece ty d sql))
    (HF : forall children, Forall (fun kc => P (snd kc)) children ->
                           P (SchemaFolder.Folder children))
    (n : SchemaFolder.Node) : P n :=
  match n with
  | SchemaFolder.Piece ty d sql => HP ty d sql
  | SchemaFolder.Folder children =>
      HF children
        ((fix go (cs : list (string * SchemaFolder.Node)) : Forall (fun kc => P (snd kc)) cs :=
            match cs with
            | [] => @List.Forall_nil _ _
            | (k, c) :: rest =>
                @List.Forall_cons _ (fun kc => P (snd kc)) (k, c) rest
                  (Node_nested_ind P HP HF c) (go rest)
            end) children)
  end.

(** The columns of a node are its leaf pieces, in order. *)
Lemma nodeSqlSchema_pieces (n : SchemaFolder.Node) : forall name,
  SchemaFolder.nodeSqlSchema name n = map SchemaFolder.column_of (SchemaFolder.nodePieces name n).
Proof.
  induction n as [ty d sql | children IH] using Node_nested_ind; intros name; [done|].
  simpl. induction IH as [|[k c] rest Hc _ IHrest]; [done|].
  simpl in *. by rewrite map_app, Hc, IHrest.
Qed.

Lemma sqlSchema_pieces (s : SchemaFolder.t) :
  SchemaFolder.sqlSchema s = map SchemaFolder.column_of (SchemaFolder.pieces s).
Proof.
  unfold SchemaFolder.sqlSchema.
  induction s as [|[k c] s IH]; simpl; [done|].
  by rewrite map_app, nodeSqlSchema_pieces, IH.
Qed.

(** ** Running method bodies *)

Section Runs.

Context {W : Type} (handle : W -> IOCall -> W * Settled) (client : KlasaClient).

Lemma run_bind {A B : Type} (p : Async A) (f : A -> Async B) w g :
  run handle client (p ≫= f) w g
  = sequel (run handle client p w g) (fun a => run handle client (f a)).
Proof.
  unfold mbind, Async_mbind. revert w g.
  induction p as [r|e|k IH|k IH|b k IH|s k IH|c k IH]; intros w g; simpl; auto.
  - unfold sequel. simpl. by destruct (run handle client (f r) w g).
  - rewrite IH. unfold sequel, observed. simpl.
    by destruct (result (run handle client (k (handle w c).2) (handle w c).1 g)).
Qed.

Lemma steady_bind {A B : Type} (p : Async A) (f : A -> Async B) :
  Steady p -> (forall a, Steady (f a)) -> Steady (p ≫= f).
Proof.
  unfold mbind, Async_mbind. intros Hp Hf.
  induction Hp; simpl; try (constructor; auto); auto.
Qed.

(** Once [ready] is true, a steady body leaves it true at every suspension
    point and at its end. *)
Lemma steady_run {R : Type} (p : Async R) :
  Steady p -> forall w g, ready g = true ->
  ready (gateway (run handle client p w g)) = true
  /\ Forall (fun ev => ready (pending_this ev) = true) (trace (run handle client p w g)).
Proof.
  induction 1 as [r|e|k Hk IH|k Hk IH|k Hk IH|s k Hk IH|c k Hk IH];
    intros w g Hg; simpl; auto.
  destruct (IH (handle w c).2 (handle w c).1 g Hg) as [Hr Ht].
  split; [done|]. by constructor.
Qed.

End Runs.

(** ** The initialisation protocol, under any environment *)

(** Symbolic execution of a method body: unfold it down to the next call,
    then split on how the environment settles that call. *)
Ltac unfold_methods :=
  unfold init, initSchema, initTable, this, theClient, await, member, lift,
    mbind, Async_mbind in *.

Ltac settle_next handle :=
  match goal with
  | |- context [handle ?w ?c] =>
      let w' := fresh "w" in
      let e := fresh "e" in
      let v := fresh "v" in
      let E := fresh "Hcall" in
      destruct (handle w c) as [w' [e|v]] eqn:E
  end.

Ltac exec handle := unfold_methods; cbn; repeat (settle_next handle; cbn).

Section Protocol.

Variable newSchemaFolder : JSValue -> Exn + SchemaFolder.t.
Context {W : Type} (handle : W -> IOCall -> W * Settled) (client : KlasaClient).

Lemma steady_initSchema ds : Steady (initSchema newSchemaFolder ds).
Proof.
  unfold initSchema, this, await, lift.
  repeat first
    [ apply steady_bind | constructor | intros ?
    | match goal with |- Steady (match ?x with _ => _ end) => destruct x end ].
Qed.

Lemma steady_initTable : Steady initTable.
Proof.
  unfold initTable, this, theClient, await, lift, member.
  repeat first
    [ apply steady_bind | constructor | intros ?
    | match goal with |- Steady (match ?x with _ => _ end) => destruct x end ].
Qed.

(** A call of [init] on a gateway that is already ready throws at once: it
    issues no call and changes nothing. *)
Lemma init_when_ready ds w g :
  ready g = true ->
  run handle client (init newSchemaFolder ds) w g
  = {| world := w; gateway := g; trace := [];
       result := inl (Error "[INIT] [object Object] has already initialized.") |}.
Proof. intros Hg. unfold_methods. cbn. by rewrite Hg. Qed.

(** A call of [init] on a gateway that is not ready yet assigns [ready]
    first and then runs the two bootstraps in sequence. *)
Lemma init_when_fresh ds w g :
  ready g = false ->
  run handle client (init newSchemaFolder ds) w g
  = sequel (run handle client (initSchema newSchemaFolder ds) w (set_ready true g))
           (fun _ => run handle client initTable).
Proof.
  intros Hg. rewrite <- run_bind. unfold init, this at 1, mbind, Async_mbind.
  cbn. by rewrite Hg.
Qed.

Lemma init_ready ds w g :
  ready (gateway (run handle client (init newSchemaFolder ds) w g)) = true
  /\ Forall (fun ev => ready (pending_this ev) = true)
            (trace (run handle client (init newSchemaFolder ds) w g)).
Proof.
  destruct (ready g) eqn:Hg.
  - rewrite init_when_ready by done. simpl. by split.
  - rewrite init_when_fresh, <- run_bind by done.
    apply steady_run; [|done].
    apply steady_bind; [apply steady_initSchema | intros; apply steady_initTable].
Qed.

(** The schema bootstrap assigns [schema] exactly when it resolves, and
    issues file-system calls only. *)
Lemma initSchema_gateway ds w g :
  gateway (run handle client (initSchema newSchemaFolder ds) w g)
  = match result (run handle client (initSchema newSchemaFolder ds) w g) with
    | inr s => set_schema s g
    | inl _ => g
    end.
Proof. exec handle; try done; by destruct (newSchemaFolder _). Qed.

Lemma initSchema_file_calls ds w g :
  forallb isFileCall (calls (trace (run handle client (initSchema newSchemaFolder ds) w g)))
  = true.
Proof. exec handle; try done; by destruct (newSchemaFolder _). Qed.

(** Whatever the reason a read of the definition file is rejected with,
    the next call writes the default definition to the same path, and once
    that write resolves the tree is built from the default. *)
Lemma initSchema_read_rejected ds w g w1 u w2 e :
  handle w (EnsureDir (baseDir g)) = (w1, inr u) ->
  handle w1 (ReadJSON (filePath g)) = (w2, inl e) ->
  let o := run handle client (initSchema newSchemaFolder ds) w g in
  calls (trace o)
  = [EnsureDir (baseDir g); ReadJSON (filePath g); OutputJSONAtomic (filePath g) ds]
  /\ result o = match snd (handle w2 (OutputJSONAtomic (filePath g) ds)) with
                | inl e' => inl e'
                | inr _ => newSchemaFolder ds
                end.
Proof.
  intros Hdir Hread o. subst o. unfold_methods. cbn. rewrite Hdir. cbn.
  rewrite Hread. cbn. settle_next handle; cbn; [done|].
  by destruct (newSchemaFolder ds).
Qed.

(** The storage bootstrap assigns nothing. *)
Lemma initTable_gateway w g : gateway (run handle client initTable w g) = g.
Proof.
  unfold_methods. cbn. destruct (provider client g) eqn:Hp; cbn; [|done].
  settle_next handle; cbn; [done|]. destruct (truthy _); cbn; [done|].
  rewrite Hp. cbn. destruct (sqlSchema g); cbn; [done|]. settle_next handle; by cbn.
Qed.

(** The calls of the storage bootstrap once the provider resolves: one
    [hasTable], then one [createTable] if the answer was falsy. *)
Lemma initTable_calls w g p s :
  provider client g = Some p ->
  schema g = Some s ->
  calls (trace (run handle client initTable w g))
  = HasTable p (type g)
      :: match (handle w (HasTable p (type g))).2 with
         | inr answer =>
             if truthy answer then []
             else [CreateTable p (type g)
                     (("id", "VARCHAR(19) NOT NULL UNIQUE PRIMARY KEY")
                        :: SchemaFolder.sqlSchema s)]
         | inl _ => []
         end.
Proof.
  intros Hp Hs. unfold_methods. cbn. rewrite Hp. cbn.
  settle_next handle; cbn; [done|]. destruct (truthy _); cbn; [done|].
  rewrite Hp. unfold sqlSchema. rewrite Hs. cbn. settle_next handle; by cbn.
Qed.

End Protocol.

Lemma no_createTable_among_file_calls (cs : list IOCall) :
  forallb isFileCall cs = true ->
  filter (fun c => isCreateTable c = true) cs = [].
Proof.
  induction cs as [|c cs IH]; simpl; [done|].
  intros [Hc Hcs]%andb_prop. rewrite filter_cons, IH by done.
  destruct c; simpl in *; try done; by destruct (decide _).
Qed.

(** ** The claims *)

Section Claims.

Variable resolve : string -> string -> string.
Variable newSchemaFolder : JSValue -> Exn + SchemaFolder.t.

(** C1 (as amended).  [init] assigns [ready = true] before the schema
    bootstrap and the storage bootstrap start, not after them: [ready] is true
    at every suspension point of [init] and after [init] has returned or
    rejected, whether or not the bootstraps succeeded. *)
Theorem init_sets_ready_before_bootstrap :
  forall (W : Type) (handle : W -> IOCall -> W * Settled) client ds w g,
    let o := run handle client (init newSchemaFolder ds) w g in
    Forall (fun ev => ready (pending_this ev) = true) (trace o)
    /\ ready (gateway o) = true
    /\ (forall e, result o = inl e -> ready (gateway o) = true).
Proof.
  intros W handle client ds w g o.
  destruct (init_ready newSchemaFolder handle client ds w g) as [Hend Hpending].
  by repeat split.
Qed.

(** C2 (as amended).  At every point of the lifetime of a gateway (as
    constructed, while [init] is suspended, after [init] returned or
    rejected) a non-null [schema] implies [ready]; a constructed gateway has
    neither, and a gateway on which [init] resolved has both. *)
Theorem schema_set_implies_ready :
  (forall g, Lifetime resolve newSchemaFolder g -> schema g <> None -> ready g = true)
  /\ (forall client type provider,
        schema (constructor resolve client type provider) = None
        /\ ready (constructor resolve client type provider) = false)
  /\ (forall (W : Type) (handle : W -> IOCall -> W * Settled) client ds w g,
        let o := run handle client (init newSchemaFolder ds) w g in
        result o = inr tt -> schema (gateway o) <> None /\ ready (gateway o) = true).
Proof.
  split_and!.
  - intros g Hlife Hschema. destruct Hlife as [client ty prov | W handle client w ds g ev _ Hev | W handle client w ds g _].
    + done.
    + destruct (init_ready newSchemaFolder handle client ds w g) as [_ Hall].
      rewrite Forall_forall in Hall. apply Hall. by apply list_elem_of_In.
    + apply init_ready.
  - done.
  - intros W handle client ds w g o Hres. subst o.
    split; [|apply init_ready].
    destruct (ready g) eqn:Hg.
    { by rewrite init_when_ready in Hres. }
    rewrite init_when_fresh in * by done. unfold sequel in *.
    pose proof (initSchema_gateway newSchemaFolder handle client ds w (set_ready true g)) as Hgw.
    destruct (result (run handle client (initSchema newSchemaFolder ds) w (set_ready true g)))
      as [e|s]; [done|].
    cbv beta iota zeta. cbn [gateway]. rewrite initTable_gateway, Hgw. done.
Qed.

(** C3.  Once [init] has been invoked on a gateway, be it still suspended
    or already settled, another invocation throws the already-initialized
    error at once: it issues no call at all (no read or write of the
    definition file, no [hasTable], no [createTable]) and changes neither the
    environment nor the gateway. *)
Theorem init_twice_throws :
  forall (W1 : Type) (handle1 : W1 -> IOCall -> W1 * Settled) client1 ds1 w1 g,
    let first := run handle1 client1 (init newSchemaFolder ds1) w1 g in
    forall g', g' = gateway first \/ In g' (map pending_this (trace first)) ->
    forall (W2 : Type) (handle2 : W2 -> IOCall -> W2 * Settled) client2 ds2 w2,
      let second := run handle2 client2 (init newSchemaFolder ds2) w2 g' in
      result second = inl (Error "[INIT] [object Object] has already initialized.")
      /\ trace second = []
      /\ world second = w2
      /\ gateway second = g'.
Proof.
  intros W1 handle1 client1 ds1 w1 g first g' Hg' W2 handle2 client2 ds2 w2 second.
  assert (Hready : ready g' = true).
  { destruct (init_ready newSchemaFolder handle1 client1 ds1 w1 g) as [Hend Hall].
    destruct Hg' as [->|Hin]; [done|].
    apply in_map_iff in Hin as (ev & <- & Hev).
    rewrite Forall_forall in Hall. apply Hall. by apply list_elem_of_In. }
  subst second. by rewrite init_when_ready.
Qed.

(** C8.  When [init] reaches the storage bootstrap (the schema bootstrap
    resolved) and the provider resolves, the calls of [init] are those of the
    schema bootstrap, which are file-system calls only, then one
    [hasTable(type)], then one [createTable(type, sqlSchema)] if the answer
    was falsy and nothing if it was truthy or a rejection.  So [createTable]
    is called exactly once when [hasTable] answered false, never when it
    answered true, and never before [hasTable]. *)
Theorem createTable_once_iff_hasTable_false :
  forall (W : Type) (handle : W -> IOCall -> W * Settled) client ds w g s p,
    ready g = false ->
    let schemaPhase := run handle client (initSchema newSchemaFolder ds) w (set_ready true g) in
    result schemaPhase = inr s ->
    provider client g = Some p ->
    let answer := snd (handle (world schemaPhase) (HasTable p (type g))) in
    let columns := ("id", "VARCHAR(19) NOT NULL UNIQUE PRIMARY KEY") :: SchemaFolder.sqlSchema s in
    let o := run handle client (init newSchemaFolder ds) w g in
    calls (trace o)
    = calls (trace schemaPhase)
        ++ HasTable p (type g)
        :: match answer with
           | inr v => if truthy v then [] else [CreateTable p (type g) columns]
           | inl _ => []
           end
    /\ forallb isFileCall (calls (trace schemaPhase)) = true
    /\ sqlSchema (gateway schemaPhase) = inr columns
    /\ (answer = inr (JBool false) -> createTableCalls (trace o) = 1)
    /\ (answer = inr (JBool true) -> createTableCalls (trace o) = 0).
Proof.
  intros W handle client ds w g s p Hg schemaPhase Hres Hp answer columns o.
  pose proof (initSchema_gateway newSchemaFolder handle client ds w (set_ready true g)) as Hgw.
  pose proof (initSchema_file_calls newSchemaFolder handle client ds w (set_ready true g)) as Hfs.
  fold schemaPhase in Hgw, Hfs. rewrite Hres in Hgw.
  assert (Hcalls : calls (trace o)
    = calls (trace schemaPhase)
        ++ HasTable p (type g)
        :: match answer with
           | inr v => if truthy v then [] else [CreateTable p (type g) columns]
           | inl _ => []
           end).
  { subst o. rewrite init_when_fresh by done. fold schemaPhase.
    unfold sequel. rewrite Hres. cbv beta iota zeta. cbn [trace].
    unfold calls. rewrite map_app. f_equal.
    fold (calls (trace (run handle client initTable (world schemaPhase) (gateway schemaPhase)))).
    rewrite Hgw. by rewrite (initTable_calls handle client _ _ p s). }
  split_and!; [done | done | by rewrite Hgw | |].
  - intros Hanswer. unfold createTableCalls.
    rewrite Hcalls, Hanswer, filter_app, no_createTable_among_file_calls by done.
    reflexivity.
  - intros Hanswer. unfold createTableCalls.
    rewrite Hcalls, Hanswer, filter_app, no_createTable_among_file_calls by done.
    reflexivity.
Qed.

(** C7.  The [provider] accessor looks [providerName] up in the registry as
    it is at the time of the access: the gateway keeps no provider of its own,
    a provider registered after the gateway was constructed is returned by the
    next access, and an unregistered name gives null, not an exception. *)
Theorem provider_looked_up_on_each_access :
  forall client type prov,
    let g := constructor resolve client type prov in
    (forall later, provider later g = providers later !! providerName g)
    /\ (forall later, providers later !! providerName g = None -> provider later g = None)
    /\ (forall later p, provider (register (providerName g) p later) g = Some p)
    /\ (forall p, providers client !! providerName g = None ->
          provider client g = None
          /\ provider (register (providerName g) p client) g = Some p).
Proof.
  intros client ty prov g. unfold provider, register. cbn.
  split_and!; try done.
  - intros later p. apply lookup_insert_eq.
  - intros p Hnone. split; [done|]. apply lookup_insert_eq.
Qed.

End Claims.

(** C4.  Whatever the shape of the schema tree (empty, flat, nested), the
    [sqlSchema] accessor returns the identity column [id] first and then the
    flattened columns of the tree, which are its leaf pieces, one column per
    piece, in declaration order. *)
Theorem sqlSchema_identity_then_pieces :
  forall g s,
    schema g = Some s ->
    sqlSchema g
    = inr (("id", "VARCHAR(19) NOT NULL UNIQUE PRIMARY KEY") :: SchemaFolder.sqlSchema s)
    /\ SchemaFolder.sqlSchema s = map SchemaFolder.column_of (SchemaFolder.pieces s)
    /\ (forall columns, sqlSchema g = inr columns ->
          length columns = S (length (SchemaFolder.pieces s))
          /\ map fst columns = "id" :: map (fun piece => fst (fst piece)) (SchemaFolder.pieces s)).
Proof.
  intros g s Hs. unfold sqlSchema. rewrite Hs.
  split_and!; [done | apply sqlSchema_pieces |].
  intros columns [= <-]. rewrite sqlSchema_pieces. cbn.
  rewrite length_map, map_map. done.
Qed.

(** C6.  On a gateway whose schema is set, [defaults] returns the default
    mapping of the schema tree with the key [default] bound to true: every
    other key reads as in the tree's mapping, and when the tree declares no
    key [default] the result is that mapping followed by the flag. *)
Theorem defaults_merges_default_flag :
  forall g s,
    schema g = Some s ->
    exists o,
      defaults g = inr o
      /\ o = obj_set (SchemaFolder.defaults s) "default" (JBool true)
      /\ (forall k, obj_get o k
                    = if String.eqb k "default" then Some (JBool true)
                      else obj_get (SchemaFolder.defaults s) k)
      /\ (obj_get (SchemaFolder.defaults s) "default" = None ->
          o = SchemaFolder.defaults s ++ [("default", JBool true)]).
Proof.
  intros g s Hs. eexists. unfold defaults. rewrite Hs.
  rewrite obj_spread_copy by apply SchemaFolder_defaults_NoDup.
  split_and!; [done | done | |].
  - intros k. destruct (String.eqb k "default") eqn:E.
    + apply String.eqb_eq in E as ->. apply obj_get_set_eq.
    + apply String.eqb_neq in E. by apply obj_get_set_ne.
  - intros Hnone. apply obj_set_fresh. by apply obj_get_None.
Qed.

(** C10.  When the default mapping of the schema tree itself has a key
    [default], the accessor shadows it: the result binds [default] to true
    whatever the schema declared, adds no key, and every other key keeps the
    default the schema declared. *)
Theorem defaults_shadows_declared_default :
  forall g s declared,
    schema g = Some s ->
    obj_get (SchemaFolder.defaults s) "default" = Some declared ->
    exists o,
      defaults g = inr o
      /\ obj_get o "default" = Some (JBool true)
      /\ (forall k, k <> "default" -> obj_get o k = obj_get (SchemaFolder.defaults s) k)
      /\ obj_keys o = obj_keys (SchemaFolder.defaults s).
Proof.
  intros g s declared Hs Hdeclared. eexists. unfold defaults. rewrite Hs.
  rewrite obj_spread_copy by apply SchemaFolder_defaults_NoDup.
  split_and!; [done | apply obj_get_set_eq | |].
  - intros k Hk. by apply obj_get_set_ne.
  - by rewrite obj_set_keys, Hdeclared.
Qed.

(** ** The initialisation protocol on the reference environment *)

Section OnDisk.

Variable newSchemaFolder : JSValue -> Exn + SchemaFolder.t.
Variable client : KlasaClient.

#[local] Arguments settle : simpl never.



Lemma settle_ensureDir w d :
  files (fst (settle w (EnsureDir d))) = files w
  /\ readOnly (fst (settle w (EnsureDir d))) = readOnly w
  /\ stores (fst (settle w (EnsureDir d))) = stores w
  /\ (forall u, snd (settle w (EnsureDir d)) = inr u ->
        d ∈ dirs (fst (settle w (EnsureDir d)))).
Proof.
  unfold settle. destruct (bool_decide (d ∈ dirs w)) eqn:Hd.
  - apply bool_decide_eq_true in Hd. by cbn.
  - destruct (readOnly w) eqn:Hro; cbn; split_and!; try done. intros _ _. set_solver.
Qed.

Lemma settle_ensureDir_present w d :
  d ∈ dirs w -> settle w (EnsureDir d) = (w, inr JUndefined).
Proof. intros Hd. unfold settle. by rewrite bool_decide_eq_true_2. Qed.

(** The directory bootstrap does not look at the definition file. *)
Lemma settle_ensureDir_without_file w d path c :
  with_file path c (fst (settle (without_file path w) (EnsureDir d)))
  = with_file path c (fst (settle w (EnsureDir d)))
  /\ snd (settle (without_file path w) (EnsureDir d)) = snd (settle w (EnsureDir d)).
Proof.
  unfold settle, with_file, without_file. cbn.
  destruct (bool_decide (d ∈ dirs w)); [|destruct (readOnly w) eqn:Hro]; cbn;
    by rewrite ?Hro, insert_delete_eq.
Qed.

(** The schema bootstrap on a disk whose definition file parses: the file
    is read, never written. *)
Lemma initSchema_loads ds w g v :
  files w !! filePath g = Some (Parsable v) ->
  let o := run settle client (initSchema newSchemaFolder ds) w g in
  world o = fst (settle w (EnsureDir (baseDir g)))
  /\ fileWrites (trace o) = 0
  /\ result o = match snd (settle w (EnsureDir (baseDir g))) with
                | inl e => inl e
                | inr _ => newSchemaFolder v
                end.
Proof.
  intros Hfile o. subst o. unfold_methods. cbn.
  destruct (settle_ensureDir w (baseDir g)) as (Hfiles & _).
  destruct (settle w (EnsureDir (baseDir g))) as [w1 [e|u]] eqn:E1; cbn in *; [done|].
  assert (Hread : settle w1 (ReadJSON (filePath g)) = (w1, inr v)).
  { unfold settle. by rewrite Hfiles, Hfile. }
  rewrite Hread. cbn. by destruct (newSchemaFolder v).
Qed.

(** A schema bootstrap that resolved leaves a definition file that parses
    and a base directory that exists. *)
Lemma initSchema_resolved_leaves_file ds w g s :
  let o := run settle client (initSchema newSchemaFolder ds) w g in
  result o = inr s ->
  baseDir g ∈ dirs (world o)
  /\ exists v, files (world o) !! filePath g = Some (Parsable v).
Proof.
  intros o. subst o. unfold_methods. cbn.
  destruct (settle_ensureDir w (baseDir g)) as (Hfiles & _ & _ & Hdir).
  destruct (settle w (EnsureDir (baseDir g))) as [w1 [e|u]] eqn:E1; cbn in *; [done|].
  specialize (Hdir u eq_refl).
  assert (Hwrite : forall w0,
    settle w0 (OutputJSONAtomic (filePath g) ds)
    = if readOnly w0 then (w0, inl (External "EROFS: read-only file system, open"))
      else (with_file (filePath g) (Parsable ds) w0, inr JUndefined)) by done.
  destruct (files w1 !! filePath g) as [[v|text]|] eqn:Hfile.
  - assert (Hread : settle w1 (ReadJSON (filePath g)) = (w1, inr v)).
    { unfold settle. by rewrite Hfile. }
    rewrite Hread. cbn. destruct (newSchemaFolder v); cbn; [done|]. eauto.
  - assert (Hread : exists e, settle w1 (ReadJSON (filePath g)) = (w1, inl e)).
    { unfold settle. rewrite Hfile. eauto. }
    destruct Hread as [e ->]. cbn. rewrite Hwrite.
    destruct (readOnly w1); cbn; [done|].
    destruct (newSchemaFolder ds); cbn; [done|]. intros _. split; [done|].
    eexists. apply lookup_insert_eq.
  - assert (Hread : exists e, settle w1 (ReadJSON (filePath g)) = (w1, inl e)).
    { unfold settle. rewrite Hfile. eauto. }
    destruct Hread as [e ->]. cbn. rewrite Hwrite.
    destruct (readOnly w1); cbn; [done|].
    destruct (newSchemaFolder ds); cbn; [done|]. intros _. split; [done|].
    eexists. apply lookup_insert_eq.
Qed.

End OnDisk.

Section ClaimsOnDisk.

Variable newSchemaFolder : JSValue -> Exn + SchemaFolder.t.
Variable client : KlasaClient.

#[local] Arguments settle : simpl never.

(** C9.  The schema bootstrap leaves a definition file that parses as it
    is: it reads the file and issues no write, so the files of the disk are
    the same afterwards; in particular a second schema bootstrap, run where a
    first one resolved, writes nothing and changes nothing on the disk. *)
Theorem initSchema_keeps_valid_definition_file :
  (forall ds w g v,
     files w !! filePath g = Some (Parsable v) ->
     let o := run settle client (initSchema newSchemaFolder ds) w g in
     files (world o) = files w
     /\ fileWrites (trace o) = 0
     /\ files (world o) !! filePath g = Some (Parsable v))
  /\ (forall ds1 ds2 w g s,
        let first := run settle client (initSchema newSchemaFolder ds1) w g in
        result first = inr s ->
        let second := run settle client (initSchema newSchemaFolder ds2)
                        (world first) (gateway first) in
        world second = world first /\ fileWrites (trace second) = 0).
Proof.
  split.
  - intros ds w g v Hfile o.
    destruct (initSchema_loads newSchemaFolder client ds w g v Hfile) as (Hworld & Hwrites & _).
    fold o in Hworld, Hwrites.
    destruct (settle_ensureDir w (baseDir g)) as (Hfiles & _).
    rewrite Hworld, Hfiles. done.
  - intros ds1 ds2 w g s first Hres second.
    destruct (initSchema_resolved_leaves_file newSchemaFolder client ds1 w g s Hres)
      as (Hdir & v & Hfile).
    fold first in Hdir, Hfile.
    pose proof (initSchema_gateway newSchemaFolder settle client ds1 w g) as Hgw.
    fold first in Hgw. rewrite Hres in Hgw.
    assert (Hfile' : files (world first) !! filePath (gateway first) = Some (Parsable v))
      by (by rewrite Hgw).
    destruct (initSchema_loads newSchemaFolder client ds2 (world first) (gateway first) v Hfile')
      as (Hworld & Hwrites & _).
    fold second in Hworld, Hwrites. split; [|done].
    rewrite Hworld, Hgw. cbn [baseDir set_schema].
    by rewrite settle_ensureDir_present.
Qed.

End ClaimsOnDisk.

(** ** The scenarios, run *)

Import Scenario.

(** The spec's scenario: first boot of the "guilds" gateway. *)
Example first_boot_calls :
  calls (trace (boot firstBoot guilds))
  = [ EnsureDir "/bot/bwd";
      ReadJSON "/bot/bwd/guilds_Schema.json";
      OutputJSONAtomic "/bot/bwd/guilds_Schema.json" defaultSchema;
      HasTable json "guilds";
      CreateTable json "guilds"
        [("id", "VARCHAR(19) NOT NULL UNIQUE PRIMARY KEY"); ("prefix", "string")] ]
  /\ result (boot firstBoot guilds) = inr tt.
Proof. vm_compute. split; reflexivity. Qed.

Example first_boot_defaults :
  defaults (gateway (boot firstBoot guilds))
  = inr [("prefix", JStr "!"); ("default", JBool true)].
Proof. vm_compute. reflexivity. Qed.

(** A second gateway instance on the same disk loads the persisted file and
    finds the table. *)
Example restart_calls :
  calls (trace (boot afterFirstBoot guilds))
  = [ EnsureDir "/bot/bwd"; ReadJSON "/bot/bwd/guilds_Schema.json"; HasTable json "guilds" ]
  /\ world (boot afterFirstBoot guilds) = afterFirstBoot.
Proof. vm_compute. split; reflexivity. Qed.

(** C1, as stated, fails: on a disk that cannot be written the schema
    bootstrap rejects, on an unreachable backend the storage bootstrap
    rejects, and in both cases [ready], false before the call, is true after
    [init] has rejected. *)
Lemma init_rejected_with_ready_true :
  ready guilds = false
  /\ result (boot readOnlyDisk guilds)
     = inl (External "EROFS: read-only file system, mkdir")
  /\ ready (gateway (boot readOnlyDisk guilds)) = true
  /\ result (boot backendDown guilds) = inl (External "ECONNREFUSED")
  /\ ready (gateway (boot backendDown guilds)) = true
  /\ ~ (forall (w : World) e,
          result (boot w guilds) = inl e -> ready (gateway (boot w guilds)) = false).
Proof.
  assert (Hrejected : result (boot readOnlyDisk guilds)
                      = inl (External "EROFS: read-only file system, mkdir"))
    by (vm_compute; reflexivity).
  assert (Hready : ready (gateway (boot readOnlyDisk guilds)) = true)
    by (vm_compute; reflexivity).
  split_and!; [vm_compute; reflexivity | done | done | vm_compute; reflexivity
              | vm_compute; reflexivity |].
  intros Hclaim. specialize (Hclaim readOnlyDisk _ Hrejected). congruence.
Qed.

(** C2, as stated, fails: after [init] rejected in the schema bootstrap,
    and at the first suspension point of a successful [init], [ready] is true
    while [schema] is still null. *)
Lemma schema_null_while_ready :
  (schema (gateway (boot readOnlyDisk guilds)) = None
   /\ ready (gateway (boot readOnlyDisk guilds)) = true)
  /\ (exists ev, head (trace (boot firstBoot guilds)) = Some ev
        /\ schema (pending_this ev) = None /\ ready (pending_this ev) = true)
  /\ ~ (schema (gateway (boot readOnlyDisk guilds)) <> None
        <-> ready (gateway (boot readOnlyDisk guilds)) = true).
Proof.
  assert (Hschema : schema (gateway (boot readOnlyDisk guilds)) = None)
    by (vm_compute; reflexivity).
  assert (Hready : ready (gateway (boot readOnlyDisk guilds)) = true)
    by (vm_compute; reflexivity).
  split_and!; [done | done | |].
  - eexists. vm_compute. split_and!; reflexivity.
  - intros [_ Hclaim]. by apply Hclaim.
Qed.

(** ** The claims at the scenarios *)

(** C1 at a disk that cannot be written: [init] rejects and [ready] is
    true. *)
Lemma init_sets_ready_before_bootstrap_witness :
  result (boot readOnlyDisk guilds) = inl (External "EROFS: read-only file system, mkdir")
  /\ ready (gateway (boot readOnlyDisk guilds)) = true.
Proof.
  assert (Hrejected : result (boot readOnlyDisk guilds)
                      = inl (External "EROFS: read-only file system, mkdir"))
    by (vm_compute; reflexivity).
  split; [exact Hrejected|].
  destruct (init_sets_ready_before_bootstrap SchemaFolder.build World settle client
              defaultSchema readOnlyDisk guilds) as (_ & _ & Hfail).
  exact (Hfail _ Hrejected).
Defined.

(** C2 at the first boot: the gateway [init] resolved on is in the lifetime
    of [guilds], and has both a schema and [ready]. *)
Lemma schema_set_implies_ready_witness :
  Lifetime resolve SchemaFolder.build (gateway (boot firstBoot guilds))
  /\ schema (gateway (boot firstBoot guilds)) <> None
  /\ ready (gateway (boot firstBoot guilds)) = true.
Proof.
  destruct (schema_set_implies_ready resolve SchemaFolder.build) as (Himp & _ & Hdone).
  assert (Hlife : Lifetime resolve SchemaFolder.build (gateway (boot firstBoot guilds))).
  { apply Lifetime_settled. apply Lifetime_new. }
  assert (Hresolved : result (boot firstBoot guilds) = inr tt) by (vm_compute; reflexivity).
  destruct (Hdone World settle client defaultSchema firstBoot guilds Hresolved) as [Hschema _].
  split_and!; [exact Hlife | exact Hschema | exact (Himp _ Hlife Hschema)].
Defined.

(** C3 at the first boot: a second [init] on the same instance. *)
Lemma init_twice_throws_witness :
  result (boot afterFirstBoot (gateway (boot firstBoot guilds)))
  = inl (Error "[INIT] [object Object] has already initialized.")
  /\ trace (boot afterFirstBoot (gateway (boot firstBoot guilds))) = []
  /\ world (boot afterFirstBoot (gateway (boot firstBoot guilds))) = afterFirstBoot
  /\ gateway (boot afterFirstBoot (gateway (boot firstBoot guilds)))
     = gateway (boot firstBoot guilds).
Proof.
  exact (init_twice_throws SchemaFolder.build World settle client defaultSchema firstBoot guilds
           (gateway (boot firstBoot guilds)) (or_introl eq_refl)
           World settle client defaultSchema afterFirstBoot).
Defined.

(** C4 at a nested schema. *)
Lemma sqlSchema_identity_then_pieces_witness :
  sqlSchema (set_schema shadowing guilds)
  = inr [ ("id", "VARCHAR(19) NOT NULL UNIQUE PRIMARY KEY");
          ("prefix", "TEXT"); ("default", "BOOLEAN"); ("role", "VARCHAR(19)") ].
Proof.
  destruct (sqlSchema_identity_then_pieces (set_schema shadowing guilds) shadowing eq_refl)
    as (Haccessor & _ & _).
  exact Haccessor.
Defined.

(** C6 at the spec's scenario: [{ prefix: "!", default: true }]. *)
Lemma defaults_merges_default_flag_witness :
  defaults (gateway (boot firstBoot guilds))
  = inr [("prefix", JStr "!"); ("default", JBool true)].
Proof.
  destruct (defaults_merges_default_flag (gateway (boot firstBoot guilds))
              [("prefix", SchemaFolder.Piece "string" (JStr "!") "string")])
    as (o & Haccessor & Hvalue & _ & _).
  - vm_compute. reflexivity.
  - rewrite Haccessor, Hvalue. reflexivity.
Defined.

(** C10 at a schema that declares [default: false]. *)
Lemma defaults_shadows_declared_default_witness :
  obj_get (SchemaFolder.defaults shadowing) "default" = Some (JBool false)
  /\ exists o, defaults (set_schema shadowing guilds) = inr o
       /\ obj_get o "default" = Some (JBool true)
       /\ obj_get o "prefix" = Some (JStr "!")
       /\ obj_keys o = ["prefix"; "default"; "mod"].
Proof.
  split; [reflexivity|].
  destruct (defaults_shadows_declared_default (set_schema shadowing guilds) shadowing
              (JBool false) eq_refl eq_refl)
    as (o & Haccessor & Hflag & Hothers & Hkeys).
  exists o. split_and!; [exact Haccessor | exact Hflag | | exact Hkeys].
  rewrite Hothers; [reflexivity | discriminate].
Defined.

(** C7 at a client that registers its provider after the gateway was
    constructed. *)
Lemma provider_looked_up_on_each_access_witness :
  provider bare (constructor resolve bare "guilds" None) = None
  /\ provider (register "json" json bare) (constructor resolve bare "guilds" None)
     = Some json.
Proof.
  destruct (provider_looked_up_on_each_access resolve bare "guilds" None)
    as (_ & _ & _ & Hlate).
  exact (Hlate json eq_refl).
Defined.

(** C8 at the first boot: [hasTable] answered false, one [createTable]. *)
Lemma createTable_once_iff_hasTable_false_witness :
  createTableCalls (trace (boot firstBoot guilds)) = 1.
Proof.
  assert (Hphase : result (run settle client (initSchema SchemaFolder.build defaultSchema)
                             firstBoot (set_ready true guilds))
                   = inr [("prefix", SchemaFolder.Piece "string" (JStr "!") "string")])
    by (vm_compute; reflexivity).
  destruct (createTable_once_iff_hasTable_false SchemaFolder.build World settle client
              defaultSchema firstBoot guilds _ json eq_refl Hphase eq_refl)
    as (_ & _ & _ & Honce & _).
  apply Honce. vm_compute. reflexivity.
Defined.

(** C9 at the disk the first boot left. *)
Lemma initSchema_keeps_valid_definition_file_witness :
  files (world (run settle client (initSchema SchemaFolder.build JNull) afterFirstBoot guilds))
  = files afterFirstBoot
  /\ fileWrites (trace (run settle client (initSchema SchemaFolder.build JNull)
                          afterFirstBoot guilds)) = 0.
Proof.
  destruct (initSchema_keeps_valid_definition_file SchemaFolder.build client) as (Hkeeps & _).
  destruct (Hkeeps JNull afterFirstBoot guilds defaultSchema) as (Hfiles & Hwrites & _).
  - vm_compute. reflexivity.
  - split; [exact Hfiles | exact Hwrites].
Defined.

(** * Further properties of the code *)

(** ** Failures of the schema bootstrap *)

Section SchemaFailures.

Variable newSchemaFolder : JSValue -> Exn + SchemaFolder.t.
Context {W : Type} (handle : W -> IOCall -> W * Settled) (client : KlasaClient).

Lemma init_after_schema_failure ds w g e :
  ready g = false ->
  result (run handle client (initSchema newSchemaFolder ds) w (set_ready true g)) = inl e ->
  run handle client (init newSchemaFolder ds) w g
  = {| world := world (run handle client (initSchema newSchemaFolder ds) w (set_ready true g));
       gateway := set_ready true g;
       trace := trace (run handle client (initSchema newSchemaFolder ds) w (set_ready true g));
       result := inl e |}.
Proof.
  intros Hg Hres. rewrite init_when_fresh by done. unfold sequel. rewrite Hres.
  pose proof (initSchema_gateway newSchemaFolder handle client ds w (set_ready true g)) as Hgw.
  rewrite Hres in Hgw. by rewrite Hgw.
Qed.

Lemma init_after_schema_success ds w g s :
  ready g = false ->
  result (run handle client (initSchema newSchemaFolder ds) w (set_ready true g)) = inr s ->
  let schemaPhase := run handle client (initSchema newSchemaFolder ds) w (set_ready true g) in
  let tablePhase := run handle client initTable (world schemaPhase)
                      (set_schema s (set_ready true g)) in
  run handle client (init newSchemaFolder ds) w g
  = {| world := world tablePhase; gateway := set_schema s (set_ready true g);
       trace := trace schemaPhase ++ trace tablePhase; result := result tablePhase |}.
Proof.
  intros Hg Hres schemaPhase tablePhase. subst tablePhase schemaPhase.
  rewrite init_when_fresh by done. unfold sequel. rewrite Hres.
  pose proof (initSchema_gateway newSchemaFolder handle client ds w (set_ready true g)) as Hgw.
  rewrite Hres in Hgw. rewrite Hgw.
  cbv beta iota zeta. by rewrite initTable_gateway.
Qed.

(** X1.  Whatever makes the schema bootstrap reject (the directory, the
    write of the default, the SchemaFolder constructor), [init] rejects with
    that same reason without ever calling the provider; [schema] is left as it
    was and [ready] is true. *)
Theorem init_schema_failure_skips_storage ds w g e :
  ready g = false ->
  let schemaPhase := run handle client (initSchema newSchemaFolder ds) w (set_ready true g) in
  let o := run handle client (init newSchemaFolder ds) w g in
  result schemaPhase = inl e ->
  result o = inl e
  /\ trace o = trace schemaPhase
  /\ world o = world schemaPhase
  /\ forallb isFileCall (calls (trace o)) = true
  /\ schema (gateway o) = schema g
  /\ ready (gateway o) = true.
Proof.
  intros Hg schemaPhase o Hres. subst o.
  rewrite (init_after_schema_failure ds w g e Hg Hres).
  cbn [world gateway trace result schema ready set_ready].
  split_and!; try done. apply initSchema_file_calls.
Qed.

(** X2.  When [ensureDir] rejects, [init] rejects with its reason and
    nothing else is attempted: the definition file is not even read. *)
Theorem ensureDir_rejection_ends_init ds w g w1 e :
  ready g = false ->
  handle w (EnsureDir (baseDir g)) = (w1, inl e) ->
  let o := run handle client (init newSchemaFolder ds) w g in
  result o = inl e
  /\ calls (trace o) = [EnsureDir (baseDir g)]
  /\ world o = w1
  /\ gateway o = set_ready true g.
Proof.
  intros Hg Hdir o. subst o. unfold_methods. cbn. rewrite Hg. cbn. rewrite Hdir. by cbn.
Qed.

(** X3.  When the read of the definition file rejects and the write of
    the default rejects too, [init] rejects with the reason of the write (the
    reason of the read is swallowed by the [catch]); no tree is built and the
    provider is not called. *)
Theorem write_rejection_reaches_caller ds w g w1 u w2 e w3 e' :
  ready g = false ->
  handle w (EnsureDir (baseDir g)) = (w1, inr u) ->
  handle w1 (ReadJSON (filePath g)) = (w2, inl e) ->
  handle w2 (OutputJSONAtomic (filePath g) ds) = (w3, inl e') ->
  let o := run handle client (init newSchemaFolder ds) w g in
  result o = inl e'
  /\ calls (trace o)
     = [EnsureDir (baseDir g); ReadJSON (filePath g); OutputJSONAtomic (filePath g) ds]
  /\ world o = w3
  /\ gateway o = set_ready true g.
Proof.
  intros Hg Hdir Hread Hwrite o. subst o. unfold_methods. cbn. rewrite Hg. cbn.
  rewrite Hdir. cbn. rewrite Hread. cbn. rewrite Hwrite. by cbn.
Qed.

(** X4.  A definition file that parses but that the SchemaFolder
    constructor rejects is not healed: the default is not written over it,
    [init] rejects with the constructor's error right after the read. *)
Theorem rejected_definition_is_not_healed ds w g w1 u w2 v e :
  ready g = false ->
  handle w (EnsureDir (baseDir g)) = (w1, inr u) ->
  handle w1 (ReadJSON (filePath g)) = (w2, inr v) ->
  newSchemaFolder v = inl e ->
  let o := run handle client (init newSchemaFolder ds) w g in
  result o = inl e
  /\ calls (trace o) = [EnsureDir (baseDir g); ReadJSON (filePath g)]
  /\ world o = w2
  /\ gateway o = set_ready true g.
Proof.
  intros Hg Hdir Hread Hnew o. subst o. unfold_methods. cbn. rewrite Hg. cbn.
  rewrite Hdir. cbn. rewrite Hread. cbn. rewrite Hnew. by cbn.
Qed.

(** X5.  When the definition file can be read, the schema tree is built
    from what the file holds and the default passed to [initSchema] plays no
    part: the run is the same for any two defaults, and issues no write. *)
Theorem definition_file_wins_over_default ds ds' w g w1 u w2 v :
  handle w (EnsureDir (baseDir g)) = (w1, inr u) ->
  handle w1 (ReadJSON (filePath g)) = (w2, inr v) ->
  let o := run handle client (initSchema newSchemaFolder ds) w g in
  result o = newSchemaFolder v
  /\ calls (trace o) = [EnsureDir (baseDir g); ReadJSON (filePath g)]
  /\ world o = w2
  /\ (forall s, newSchemaFolder v = inr s -> schema (gateway o) = Some s)
  /\ o = run handle client (initSchema newSchemaFolder ds') w g.
Proof.
  intros Hdir Hread o. subst o. unfold_methods. cbn.
  rewrite Hdir. cbn. rewrite Hread. cbn.
  destruct (newSchemaFolder v); cbn; split_and!; try done.
  by intros s [= <-].
Qed.

Lemma run_initSchema_loaded ds w g w1 u w2 v :
  handle w (EnsureDir (baseDir g)) = (w1, inr u) ->
  handle w1 (ReadJSON (filePath g)) = (w2, inr v) ->
  let t := [ {| pending_this := g; call := EnsureDir (baseDir g); settled := inr u |};
             {| pending_this := g; call := ReadJSON (filePath g); settled := inr v |} ] in
  run handle client (initSchema newSchemaFolder ds) w g
  = match newSchemaFolder v with
    | inr s => {| world := w2; gateway := set_schema s g; trace := t; result := inr s |}
    | inl e => {| world := w2; gateway := g; trace := t; result := inl e |}
    end.
Proof.
  intros Hdir Hread t. subst t. unfold_methods. cbn. rewrite Hdir. cbn. rewrite Hread. cbn.
  by destruct (newSchemaFolder v).
Qed.

End SchemaFailures.

(** ** The storage bootstrap *)

Section Storage.

Variable newSchemaFolder : JSValue -> Exn + SchemaFolder.t.
Context {W : Type} (handle : W -> IOCall -> W * Settled) (client : KlasaClient).

(** The storage bootstrap in full, once the provider resolves and the
    schema is set. *)
Lemma run_initTable w g p s :
  provider client g = Some p ->
  schema g = Some s ->
  let columns := ("id", "VARCHAR(19) NOT NULL UNIQUE PRIMARY KEY") :: SchemaFolder.sqlSchema s in
  let asked := handle w (HasTable p (type g)) in
  let has := {| pending_this := g; call := HasTable p (type g); settled := snd asked |} in
  let created := handle (fst asked) (CreateTable p (type g) columns) in
  let create := {| pending_this := g; call := CreateTable p (type g) columns;
                   settled := snd created |} in
  run handle client initTable w g
  = match snd asked with
    | inl e => {| world := fst asked; gateway := g; trace := [has]; result := inl e |}
    | inr answer =>
        if truthy answer
        then {| world := fst asked; gateway := g; trace := [has]; result := inr tt |}
        else {| world := fst created; gateway := g; trace := [has; create];
                result := match snd created with inl e => inl e | inr _ => inr tt end |}
    end.
Proof.
  intros Hp Hs columns asked has created create. subst has create created asked columns.
  unfold_methods. cbn. rewrite Hp. cbn.
  destruct (handle w (HasTable p (type g))) as [w1 [e|answer]] eqn:Hasked; cbn; [done|].
  destruct (truthy answer); cbn; [done|].
  rewrite Hp. unfold sqlSchema. rewrite Hs. cbn.
  destruct (handle w1 _) as [w2 [e|v]]; by cbn.
Qed.

Lemma run_initTable_no_provider w g :
  provider client g = None ->
  exists message,
    run handle client initTable w g
    = {| world := w; gateway := g; trace := []; result := inl (TypeError message) |}.
Proof. intros Hp. unfold_methods. cbn. rewrite Hp. cbn. eauto. Qed.

Lemma createTableCalls_app (t1 t2 : list Event) :
  forallb isFileCall (calls t1) = true ->
  createTableCalls (t1 ++ t2) = createTableCalls t2.
Proof.
  intros Hfs. unfold createTableCalls, calls. rewrite map_app, filter_app.
  fold (calls t1). by rewrite no_createTable_among_file_calls.
Qed.

(** X6.  When the provider name is not registered, [init] still runs the
    whole schema bootstrap and only then rejects, with the TypeError of
    calling [hasTable] on null; no provider call is issued, and the gateway is
    left with its schema assigned and [ready] true. *)
Theorem init_with_unregistered_provider ds w g s :
  ready g = false ->
  let schemaPhase := run handle client (initSchema newSchemaFolder ds) w (set_ready true g) in
  let o := run handle client (init newSchemaFolder ds) w g in
  result schemaPhase = inr s ->
  provider client g = None ->
  (exists message, result o = inl (TypeError message))
  /\ trace o = trace schemaPhase
  /\ world o = world schemaPhase
  /\ schema (gateway o) = Some s
  /\ ready (gateway o) = true.
Proof.
  intros Hg schemaPhase o Hres Hp. subst o.
  rewrite (init_after_schema_success newSchemaFolder handle client ds w g s Hg Hres).
  fold schemaPhase.
  destruct (run_initTable_no_provider (world schemaPhase)
              (set_schema s (set_ready true g)) Hp) as [message ->].
  cbn [world gateway trace result schema ready set_schema set_ready].
  rewrite app_nil_r. split_and!; eauto.
Qed.

(** X7.  When [hasTable] rejects, [init] rejects with its reason and
    [createTable] is not called; the schema assigned by the schema bootstrap
    stays. *)
Theorem hasTable_rejection_ends_init ds w g s p w' e :
  ready g = false ->
  let schemaPhase := run handle client (initSchema newSchemaFolder ds) w (set_ready true g) in
  let o := run handle client (init newSchemaFolder ds) w g in
  result schemaPhase = inr s ->
  provider client g = Some p ->
  handle (world schemaPhase) (HasTable p (type g)) = (w', inl e) ->
  result o = inl e
  /\ calls (trace o) = calls (trace schemaPhase) ++ [HasTable p (type g)]
  /\ createTableCalls (trace o) = 0
  /\ world o = w'
  /\ schema (gateway o) = Some s.
Proof.
  intros Hg schemaPhase o Hres Hp Hasked. subst o.
  rewrite (init_after_schema_success newSchemaFolder handle client ds w g s Hg Hres).
  fold schemaPhase.
  rewrite (run_initTable _ _ p s) by done.
  cbn [type set_schema set_ready]. rewrite Hasked.
  cbn [fst snd world gateway trace result schema set_schema].
  split_and!; try done.
  - unfold calls. by rewrite map_app.
  - rewrite createTableCalls_app by apply initSchema_file_calls. done.
Qed.

(** X8.  When [hasTable] answered falsy, the settlement of [createTable]
    is the settlement of [init]: a rejection is passed on as it is, any
    fulfilment makes [init] resolve. *)
Theorem createTable_settlement_is_init_result ds w g s p w' answer w'' r :
  ready g = false ->
  let schemaPhase := run handle client (initSchema newSchemaFolder ds) w (set_ready true g) in
  let o := run handle client (init newSchemaFolder ds) w g in
  let columns := ("id", "VARCHAR(19) NOT NULL UNIQUE PRIMARY KEY") :: SchemaFolder.sqlSchema s in
  result schemaPhase = inr s ->
  provider client g = Some p ->
  handle (world schemaPhase) (HasTable p (type g)) = (w', inr answer) ->
  truthy answer = false ->
  handle w' (CreateTable p (type g) columns) = (w'', r) ->
  result o = match r with inl e => inl e | inr _ => inr tt end
  /\ calls (trace o)
     = calls (trace schemaPhase) ++ [HasTable p (type g); CreateTable p (type g) columns]
  /\ world o = w''
  /\ schema (gateway o) = Some s.
Proof.
  intros Hg schemaPhase o columns Hres Hp Hasked Hfalsy Hcreated. subst o.
  rewrite (init_after_schema_success newSchemaFolder handle client ds w g s Hg Hres).
  fold schemaPhase.
  rewrite (run_initTable _ _ p s) by done.
  cbn [type set_schema set_ready]. rewrite Hasked.
  cbn [fst snd]. rewrite Hfalsy. fold columns. rewrite Hcreated.
  cbn [fst snd world gateway trace result schema set_schema].
  split_and!; try done. unfold calls. by rewrite map_app.
Qed.

(** X9.  The answer of [hasTable] is tested for truthiness: [createTable]
    is called once for any falsy answer (false, undefined, null, 0, the empty
    string) and not at all for any truthy one, in which case [init] resolves
    right after [hasTable]. *)
Theorem createTable_iff_answer_falsy ds w g s p w' answer :
  ready g = false ->
  let schemaPhase := run handle client (initSchema newSchemaFolder ds) w (set_ready true g) in
  let o := run handle client (init newSchemaFolder ds) w g in
  result schemaPhase = inr s ->
  provider client g = Some p ->
  handle (world schemaPhase) (HasTable p (type g)) = (w', inr answer) ->
  createTableCalls (trace o) = (if truthy answer then 0 else 1)
  /\ (truthy answer = true -> result o = inr tt /\ world o = w').
Proof.
  intros Hg schemaPhase o Hres Hp Hasked. subst o.
  rewrite (init_after_schema_success newSchemaFolder handle client ds w g s Hg Hres).
  fold schemaPhase.
  rewrite (run_initTable _ _ p s) by done.
  cbn [type set_schema set_ready]. rewrite Hasked.
  cbn [fst snd]. destruct (truthy answer);
    cbn [fst snd world gateway trace result schema set_schema];
    (rewrite createTableCalls_app by apply initSchema_file_calls); done.
Qed.

(** X10.  [initTable] run on a gateway whose schema is still null (it is
    private, [init] never does so) asks [hasTable], and on a falsy answer
    throws the TypeError of the [sqlSchema] accessor instead of calling
    [createTable]. *)
Theorem initTable_before_schema w g p w' answer :
  schema g = None ->
  provider client g = Some p ->
  handle w (HasTable p (type g)) = (w', inr answer) ->
  truthy answer = false ->
  let o := run handle client initTable w g in
  (exists message, result o = inl (TypeError message))
  /\ calls (trace o) = [HasTable p (type g)]
  /\ world o = w'.
Proof.
  intros Hs Hp Hasked Hfalsy o. subst o. unfold_methods. cbn. rewrite Hp. cbn.
  rewrite Hasked. cbn. rewrite Hfalsy. cbn. rewrite Hp. unfold sqlSchema. rewrite Hs. cbn.
  eauto.
Qed.

End Storage.

(** ** The shape of every run of [init] *)

Lemma accessorsThrow_null g : schema g = None -> accessorsThrow g.
Proof. intros Hs. unfold accessorsThrow, sqlSchema, defaults. rewrite Hs. eauto. Qed.

Lemma accessorsReturn_set g s : schema g = Some s -> accessorsReturn g.
Proof. intros Hs. unfold accessorsReturn, sqlSchema, defaults. rewrite Hs. eauto. Qed.

Section Shape.

Variable newSchemaFolder : JSValue -> Exn + SchemaFolder.t.
Context {W : Type} (handle : W -> IOCall -> W * Settled) (client : KlasaClient).

#[local] Arguments provider : simpl never.
#[local] Arguments sqlSchema : simpl never.

(** Split on the next test a method body makes. *)
Ltac branch :=
  match goal with
  | |- context [match newSchemaFolder ?d with inl _ => _ | inr _ => _ end] =>
      destruct (newSchemaFolder d) eqn:?
  | |- context [match provider client ?g with Some _ => _ | None => _ end] =>
      destruct (provider client g) eqn:?
  | |- context [if truthy ?v then _ else _] => destruct (truthy v) eqn:?
  | |- context [match sqlSchema ?g with inl _ => _ | inr _ => _ end] =>
      destruct (sqlSchema g) eqn:?
  | |- context [if ready ?g then _ else _] => destruct (ready g) eqn:?
  end.

(** X11.  In every run of [init], under any environment and from any
    gateway, the calls come in the order ensureDir, readJSON,
    outputJSONAtomic, hasTable, createTable, each at most once; each call is
    about the gateway's own directory, file and table, the file is only ever
    written with the default passed to [init], and [createTable] gets the
    value of the [sqlSchema] accessor; [type], [providerName], [baseDir] and
    [filePath] never change. *)
Theorem init_calls_in_order ds w g :
  let o := run handle client (init newSchemaFolder ds) w g in
  StronglySorted lt (map rank (calls (trace o)))
  /\ Forall (ownEvent client ds) (trace o)
  /\ Forall (fun ev => sameIdentity g (pending_this ev)) (trace o)
  /\ sameIdentity g (gateway o).
Proof.
  intros o. subst o. unfold_methods. unfold sameIdentity.
  repeat (cbn; first [settle_next handle | branch]).
  all: cbn; split_and!; repeat constructor; cbn; try lia; try done; congruence.
Qed.

(** X12.  During the first [init] of a gateway, [ready] is true at every
    suspension point, yet at those of the schema bootstrap (the file-system
    calls) both [sqlSchema] and [defaults] still throw a TypeError; they
    return at the suspension points of the storage bootstrap and once [init]
    has resolved. *)
Theorem accessors_throw_until_schema_assigned ds w g :
  schema g = None ->
  ready g = false ->
  let o := run handle client (init newSchemaFolder ds) w g in
  Forall (fun ev =>
            ready (pending_this ev) = true
            /\ if isFileCall (call ev) then accessorsThrow (pending_this ev)
               else accessorsReturn (pending_this ev))
         (trace o)
  /\ (result o = inr tt -> accessorsReturn (gateway o)).
Proof.
  intros Hs Hg o. subst o. unfold_methods. cbn. rewrite Hg.
  repeat (cbn; first [settle_next handle | branch]).
  all: cbn; split_and!; repeat constructor; cbn; try done;
    try (by apply accessorsThrow_null);
    try (by eapply accessorsReturn_set); eauto.
Qed.

End Shape.

(** ** Restarting on the reference environment *)

Section Restart.

Variable newSchemaFolder : JSValue -> Exn + SchemaFolder.t.
Variable client : KlasaClient.

#[local] Arguments settle : simpl never.

Lemma initTable_resolved_on_disk w g :
  let o := run settle client initTable w g in
  result o = inr tt ->
  files (world o) = files w /\ dirs (world o) = dirs w
  /\ exists p tables, provider client g = Some p
       /\ stores (world o) !! p = Some tables /\ is_Some (tables !! type g).
Proof.
  intros o. subst o. unfold_methods. cbn.
  destruct (provider client g) as [p|] eqn:Hp; cbn; [|done].
  assert (Hasked : settle w (HasTable p (type g))
    = match stores w !! p with
      | Some tables => (w, inr (JBool (bool_decide (is_Some (tables !! type g)))))
      | None => (w, inl (External "ECONNREFUSED"))
      end) by done.
  rewrite Hasked. destruct (stores w !! p) as [tables|] eqn:Hstore; cbn; [|done].
  destruct (bool_decide (is_Some (tables !! type g))) eqn:Hhas; cbn.
  - apply bool_decide_eq_true in Hhas. intros _. split_and!; eauto.
  - rewrite Hp. cbn. destruct (sqlSchema g) as [e|columns]; cbn; [done|].
    assert (Hcreated : settle w (CreateTable p (type g) columns)
      = (with_table p (type g) columns w, inr JUndefined)).
    { unfold settle. by rewrite Hstore, Hhas. }
    rewrite Hcreated. cbn. intros _. split_and!; try done.
    exists p. eexists. split_and!; [done | apply lookup_insert_eq |].
    rewrite Hstore. cbn. rewrite lookup_insert_eq. eauto.
Qed.

End Restart.

(** ** The constructor *)

(** X14.  The constructor falls back to the client's default provider name
    when the provider argument is omitted or is the empty string, and keeps
    any other name; the [provider] accessor then resolves that name. *)
Theorem constructor_provider_fallback (resolve : string -> string -> string) client ty prov :
  let g := constructor resolve client ty prov in
  (prov = None \/ prov = Some EmptyString ->
     providerName g = options_providers_default client
     /\ provider client g = providers client !! options_providers_default client)
  /\ (forall name, prov = Some name -> name <> EmptyString ->
        providerName g = name /\ provider client g = providers client !! name).
Proof.
  intros g. subst g. unfold provider. cbn. split.
  - by intros [-> | ->].
  - intros name -> Hname. cbn. apply String.eqb_neq in Hname. by rewrite Hname.
Qed.

(** ** Arguments and extendables *)

(** X15.  The guild argument resolves to a guild exactly when the argument
    passes the snowflake test and the client caches a guild under it, and
    then returns that cached guild; a guild cached under a key that is not a
    snowflake is never returned.  Otherwise it throws the invalid-guild
    message of the language of the message, or of the client's default
    language when the message has none. *)
Theorem guild_resolves_iff_snowflake_and_cached
    (snowflake : string -> bool) (Guild : Type)
    (guilds : gmap string Guild) dl arg name ml :
  (forall guild,
     GuildArgument.run snowflake Guild guilds dl arg name ml = inr guild
     <-> snowflake arg = true /\ guilds !! arg = Some guild)
  /\ (snowflake arg = false \/ guilds !! arg = None ->
      GuildArgument.run snowflake Guild guilds dl arg name ml
      = match languageOf ml dl with
        | inr l => inl (Thrown_value (get l "RESOLVER_INVALID_GUILD" [name]))
        | inl t => inl t
        end)
  /\ (forall l, ml = Some l -> languageOf ml dl = inr l).
Proof.
  unfold GuildArgument.run. split_and!.
  - intros guild. destruct (snowflake arg); [destruct (guilds !! arg) eqn:E|].
    + split; [intros [= ->]; done | intros [_ [= ->]]; done].
    + split; [|intros [_ ?]; done]. by destruct (languageOf ml dl).
    + split; [|intros [? _]; done]. by destruct (languageOf ml dl).
  - intros [-> | Hnone]; [done|]. rewrite Hnone. by destruct (snowflake arg).
  - by intros l ->.
Qed.

(** X16.  The regex argument returns the match array of [exec] as it is
    when there is one and never returns null: without a match it throws the
    invalid-regex message, built from the name of the possible and the text of
    the regex, and a TypeError only when neither the message nor the client
    has a language. *)
Theorem regex_returns_match_or_throws dl arg possible ml :
  (forall results,
     RegexArgument.run dl arg possible ml = inr results
     <-> RegexArgument.exec (RegexArgument.regex possible) arg = Some results)
  /\ (RegexArgument.exec (RegexArgument.regex possible) arg = None ->
      RegexArgument.run dl arg possible ml
      = match languageOf ml dl with
        | inr l =>
            inl (Thrown_value
                   (get l "RESOLVER_INVALID_REGEX_MATCH"
                      [RegexArgument.name possible;
                       RegexArgument.source (RegexArgument.regex possible)]))
        | inl t => inl t
        end)
  /\ ((exists message, RegexArgument.run dl arg possible ml = inl (Thrown_TypeError message))
      <-> RegexArgument.exec (RegexArgument.regex possible) arg = None
          /\ ml = None /\ dl = None).
Proof.
  unfold RegexArgument.run, languageOf. split_and!.
  - intros results. destruct (RegexArgument.exec _ arg).
    + split; by intros [= ->].
    + split; [|done]. by destruct ml, dl.
  - by intros ->.
  - destruct (RegexArgument.exec _ arg); [|destruct ml, dl]; split;
      try (by intros [message ?]); try (by intros (? & ? & ?)); eauto.
Qed.

(** X17.  The channel getter answers true for a channel without guild
    whatever else holds, false for a guild channel that is not readable
    without looking at permissions, and otherwise whether the permissions of
    [guild.me] include SEND_MESSAGES; it throws exactly when the guild channel
    is readable and [permissionsFor] returned null. *)
Theorem extend_characterised (Member : Type) (c : ChannelExtendable.Channel Member) :
  (ChannelExtendable.extend Member c = inr true
   <-> ChannelExtendable.guild Member c = None
       \/ exists me permissions,
            ChannelExtendable.guild Member c = Some me
            /\ ChannelExtendable.readable Member c = true
            /\ ChannelExtendable.permissionsFor Member c me = Some permissions
            /\ ChannelExtendable.has permissions "SEND_MESSAGES" = true)
  /\ ((exists t, ChannelExtendable.extend Member c = inl t)
      <-> exists me,
            ChannelExtendable.guild Member c = Some me
            /\ ChannelExtendable.readable Member c = true
            /\ ChannelExtendable.permissionsFor Member c me = None).
Proof.
  unfold ChannelExtendable.extend.
  destruct (ChannelExtendable.guild Member c) as [me|].
  2: { split; split; [by left | done | by intros [t ?] | by intros (me & ? & _)]. }
  destruct (ChannelExtendable.readable Member c).
  2: { split; split; [done | | by intros [t ?] | by intros (me' & _ & ? & _)].
       intros [? | (me' & permissions & _ & ? & _)]; done. }
  destruct (ChannelExtendable.permissionsFor Member c me) as [permissions|] eqn:Hp.
  - split; split.
    + intros [= Hhas]. right. by exists me, permissions.
    + intros [? | (me' & permissions' & [= <-] & _ & Hp' & Hhas)]; [done|].
      rewrite Hp in Hp'. by injection Hp' as <-; rewrite Hhas.
    + by intros [t ?].
    + intros (me' & [= <-] & _ & Hp'). congruence.
  - split; split.
    + done.
    + intros [? | (me' & permissions' & [= <-] & _ & Hp' & _)]; [done | congruence].
    + intros _. by exists me.
    + intros _. eauto.
Qed.

(** ** The further properties at the scenarios *)

(** X1 at a disk that cannot be written. *)
Lemma init_schema_failure_skips_storage_witness :
  result (boot readOnlyDisk guilds) = inl (External "EROFS: read-only file system, mkdir")
  /\ forallb isFileCall (calls (trace (boot readOnlyDisk guilds))) = true
  /\ schema (gateway (boot readOnlyDisk guilds)) = None.
Proof.
  assert (Hphase : result (run settle client (initSchema SchemaFolder.build defaultSchema)
                             readOnlyDisk (set_ready true guilds))
                   = inl (External "EROFS: read-only file system, mkdir"))
    by (vm_compute; reflexivity).
  destruct (init_schema_failure_skips_storage SchemaFolder.build settle client defaultSchema
              readOnlyDisk guilds _ eq_refl Hphase) as (Hres & _ & _ & Hcalls & Hschema & _).
  split_and!; [exact Hres | exact Hcalls | exact Hschema].
Defined.

(** X2 at a disk that cannot be written. *)
Lemma ensureDir_rejection_ends_init_witness :
  calls (trace (boot readOnlyDisk guilds)) = [EnsureDir "/bot/bwd"]
  /\ world (boot readOnlyDisk guilds) = readOnlyDisk.
Proof.
  assert (Hdir : settle readOnlyDisk (EnsureDir (baseDir guilds))
                 = (readOnlyDisk, inl (External "EROFS: read-only file system, mkdir")))
    by (vm_compute; reflexivity).
  destruct (ensureDir_rejection_ends_init SchemaFolder.build settle client defaultSchema
              readOnlyDisk guilds _ _ eq_refl Hdir) as (_ & Hcalls & Hworld & _).
  split; [exact Hcalls | exact Hworld].
Defined.

(** X3 at a read-only disk whose base directory exists. *)
Lemma write_rejection_reaches_caller_witness :
  result (boot lockedDir guilds) = inl (External "EROFS: read-only file system, open")
  /\ schema (gateway (boot lockedDir guilds)) = None.
Proof.
  assert (Hdir : settle lockedDir (EnsureDir (baseDir guilds)) = (lockedDir, inr JUndefined))
    by (vm_compute; reflexivity).
  assert (Hread : settle lockedDir (ReadJSON (filePath guilds))
                  = (lockedDir, inl (External "ENOENT: no such file or directory, open")))
    by (vm_compute; reflexivity).
  assert (Hwrite : settle lockedDir (OutputJSONAtomic (filePath guilds) defaultSchema)
                   = (lockedDir, inl (External "EROFS: read-only file system, open")))
    by (vm_compute; reflexivity).
  destruct (write_rejection_reaches_caller SchemaFolder.build settle client defaultSchema
              lockedDir guilds _ _ _ _ _ _ eq_refl Hdir Hread Hwrite) as (Hres & _ & _ & Hgw).
  split; [exact Hres | unfold boot; rewrite Hgw; reflexivity].
Defined.

(** X4 at a definition file that holds [42]. *)
Lemma rejected_definition_is_not_healed_witness :
  result (boot foreignFile guilds) = inl (External "invalid schema definition")
  /\ world (boot foreignFile guilds) = foreignFile.
Proof.
  assert (Hdir : settle foreignFile (EnsureDir (baseDir guilds)) = (foreignFile, inr JUndefined))
    by (vm_compute; reflexivity).
  assert (Hread : settle foreignFile (ReadJSON (filePath guilds)) = (foreignFile, inr (JNum 42)))
    by (vm_compute; reflexivity).
  destruct (rejected_definition_is_not_healed SchemaFolder.build settle client defaultSchema
              foreignFile guilds _ _ _ _ _ eq_refl Hdir Hread eq_refl) as (Hres & _ & Hworld & _).
  split; [exact Hres | exact Hworld].
Defined.

(** X5 at the disk the first boot left: an empty default changes nothing. *)
Lemma definition_file_wins_over_default_witness :
  result (run settle client (initSchema SchemaFolder.build (JObj [])) afterFirstBoot guilds)
  = SchemaFolder.build defaultSchema
  /\ run settle client (initSchema SchemaFolder.build (JObj [])) afterFirstBoot guilds
     = run settle client (initSchema SchemaFolder.build defaultSchema) afterFirstBoot guilds.
Proof.
  assert (Hdir : settle afterFirstBoot (EnsureDir (baseDir guilds))
                 = (afterFirstBoot, inr JUndefined))
    by (vm_compute; reflexivity).
  assert (Hread : settle afterFirstBoot (ReadJSON (filePath guilds))
                  = (afterFirstBoot, inr defaultSchema))
    by (vm_compute; reflexivity).
  destruct (definition_file_wins_over_default SchemaFolder.build settle client
              (JObj []) defaultSchema afterFirstBoot guilds _ _ _ _ Hdir Hread)
    as (Hres & _ & _ & _ & Hsame).
  split; [exact Hres | exact Hsame].
Defined.

(** X6 at a client on which no provider is registered. *)
Lemma init_with_unregistered_provider_witness :
  (exists message,
     result (run settle bare (init SchemaFolder.build defaultSchema) firstBoot guilds)
     = inl (TypeError message))
  /\ schema (gateway (run settle bare (init SchemaFolder.build defaultSchema) firstBoot guilds))
     = Some [("prefix", SchemaFolder.Piece "string" (JStr "!") "string")].
Proof.
  assert (Hphase : result (run settle bare (initSchema SchemaFolder.build defaultSchema)
                             firstBoot (set_ready true guilds))
                   = inr [("prefix", SchemaFolder.Piece "string" (JStr "!") "string")])
    by (vm_compute; reflexivity).
  destruct (init_with_unregistered_provider SchemaFolder.build settle bare defaultSchema
              firstBoot guilds _ eq_refl Hphase eq_refl) as (Hres & _ & _ & Hschema & _).
  split; [exact Hres | exact Hschema].
Defined.

(** X7 at an unreachable backend. *)
Lemma hasTable_rejection_ends_init_witness :
  result (boot backendDown guilds) = inl (External "ECONNREFUSED")
  /\ createTableCalls (trace (boot backendDown guilds)) = 0.
Proof.
  assert (Hphase : result (run settle client (initSchema SchemaFolder.build defaultSchema)
                             backendDown (set_ready true guilds))
                   = inr [("prefix", SchemaFolder.Piece "string" (JStr "!") "string")])
    by (vm_compute; reflexivity).
  assert (Hasked :
    settle (world (run settle client (initSchema SchemaFolder.build defaultSchema)
                     backendDown (set_ready true guilds)))
           (HasTable json (type guilds))
    = (world (run settle client (initSchema SchemaFolder.build defaultSchema)
                backendDown (set_ready true guilds)),
       inl (External "ECONNREFUSED")))
    by (vm_compute; reflexivity).
  destruct (hasTable_rejection_ends_init SchemaFolder.build settle client defaultSchema
              backendDown guilds _ json _ _ eq_refl Hphase eq_refl Hasked)
    as (Hres & _ & Hnone & _).
  split; [exact Hres | exact Hnone].
Defined.

(** X8 at the first boot: [createTable] resolved, so does [init]. *)
Lemma createTable_settlement_is_init_result_witness :
  result (boot firstBoot guilds) = inr tt
  /\ world (boot firstBoot guilds) = afterFirstBoot.
Proof.
  assert (Hphase : result (run settle client (initSchema SchemaFolder.build defaultSchema)
                             firstBoot (set_ready true guilds))
                   = inr [("prefix", SchemaFolder.Piece "string" (JStr "!") "string")])
    by (vm_compute; reflexivity).
  assert (Hasked :
    settle (world (run settle client (initSchema SchemaFolder.build defaultSchema)
                     firstBoot (set_ready true guilds)))
           (HasTable json (type guilds))
    = (world (run settle client (initSchema SchemaFolder.build defaultSchema)
                firstBoot (set_ready true guilds)),
       inr (JBool false)))
    by (vm_compute; reflexivity).
  assert (Hcreated :
    settle (world (run settle client (initSchema SchemaFolder.build defaultSchema)
                     firstBoot (set_ready true guilds)))
           (CreateTable json (type guilds)
              (("id", "VARCHAR(19) NOT NULL UNIQUE PRIMARY KEY")
                 :: SchemaFolder.sqlSchema
                      [("prefix", SchemaFolder.Piece "string" (JStr "!") "string")]))
    = (afterFirstBoot, inr JUndefined))
    by (vm_compute; reflexivity).
  destruct (createTable_settlement_is_init_result SchemaFolder.build settle client defaultSchema
              firstBoot guilds _ json _ _ _ _ eq_refl Hphase eq_refl Hasked eq_refl Hcreated)
    as (Hres & _ & Hworld & _).
  split; [exact Hres | exact Hworld].
Defined.

(** X9 at a provider whose [hasTable] resolves with undefined. *)
Lemma createTable_iff_answer_falsy_witness :
  createTableCalls (trace (run lax client (init SchemaFolder.build defaultSchema) tt guilds)) = 1.
Proof.
  assert (Hphase : result (run lax client (initSchema SchemaFolder.build defaultSchema)
                             tt (set_ready true guilds))
                   = inr [("prefix", SchemaFolder.Piece "string" (JStr "!") "string")])
    by (vm_compute; reflexivity).
  destruct (createTable_iff_answer_falsy SchemaFolder.build lax client defaultSchema
              tt guilds _ json tt JUndefined eq_refl Hphase eq_refl eq_refl)
    as (Hcount & _).
  exact Hcount.
Defined.

(** X10 at a constructed gateway. *)
Lemma initTable_before_schema_witness :
  (exists message, result (run settle client initTable firstBoot guilds) = inl (TypeError message))
  /\ calls (trace (run settle client initTable firstBoot guilds)) = [HasTable json "guilds"].
Proof.
  assert (Hasked : settle firstBoot (HasTable json (type guilds)) = (firstBoot, inr (JBool false)))
    by (vm_compute; reflexivity).
  destruct (initTable_before_schema settle client firstBoot guilds json _ _
              eq_refl eq_refl Hasked eq_refl) as (Hres & Hcalls & _).
  split; [exact Hres | exact Hcalls].
Defined.

(** X12 at the first boot. *)
Lemma accessors_throw_until_schema_assigned_witness :
  accessorsReturn (gateway (boot firstBoot guilds))
  /\ Forall (fun ev =>
               ready (pending_this ev) = true
               /\ if isFileCall (call ev) then accessorsThrow (pending_this ev)
                  else accessorsReturn (pending_this ev))
            (trace (boot firstBoot guilds)).
Proof.
  assert (Hresolved : result (boot firstBoot guilds) = inr tt) by (vm_compute; reflexivity).
  destruct (accessors_throw_until_schema_assigned SchemaFolder.build settle client defaultSchema
              firstBoot guilds eq_refl eq_refl) as (Hpending & Hdone).
  split; [exact (Hdone Hresolved) | exact Hpending].
Defined.


(** X14 at an empty provider name. *)
Lemma constructor_provider_fallback_witness :
  providerName (constructor resolve client "guilds" (Some EmptyString)) = "json"
  /\ provider client (constructor resolve client "guilds" (Some EmptyString)) = Some json.
Proof.
  destruct (constructor_provider_fallback resolve client "guilds" (Some EmptyString))
    as (Hfallback & _).
  destruct (Hfallback (or_intror eq_refl)) as (Hname & Hprovider).
  split; [exact Hname | rewrite Hprovider; reflexivity].
Defined.

(** X15 at a cache with a guild under a snowflake and one under "klasa". *)
Lemma guild_resolves_iff_snowflake_and_cached_witness :
  GuildArgument.run snowflake nat cachedGuilds None "123456789012345678" "guild" (Some english)
  = inr 1%nat
  /\ GuildArgument.run snowflake nat cachedGuilds None "klasa" "guild" (Some english)
     = inl (Thrown_value (JArr [JStr "RESOLVER_INVALID_GUILD"; JStr "guild"])).
Proof.
  split.
  - destruct (guild_resolves_iff_snowflake_and_cached snowflake nat cachedGuilds None
                "123456789012345678" "guild" (Some english)) as (Hiff & _).
    apply Hiff. split; vm_compute; reflexivity.
  - destruct (guild_resolves_iff_snowflake_and_cached snowflake nat cachedGuilds None
                "klasa" "guild" (Some english)) as (_ & Hthrows & _).
    rewrite Hthrows; [reflexivity | left; reflexivity].
Defined.

(** X16 at a regex for a number of days. *)
Lemma regex_returns_match_or_throws_witness :
  RegexArgument.run None "7d"
    {| RegexArgument.name := "duration"; RegexArgument.regex := days |} (Some english)
  = inr [Some "7d"; Some "7"]
  /\ exists message,
       RegexArgument.run None "soon"
         {| RegexArgument.name := "duration"; RegexArgument.regex := days |} None
       = inl (Thrown_TypeError message).
Proof.
  split.
  - destruct (regex_returns_match_or_throws None "7d"
                {| RegexArgument.name := "duration"; RegexArgument.regex := days |}
                (Some english)) as (Hiff & _).
    apply Hiff. reflexivity.
  - destruct (regex_returns_match_or_throws None "soon"
                {| RegexArgument.name := "duration"; RegexArgument.regex := days |}
                None) as (_ & _ & Hiff).
    apply Hiff. split_and!; reflexivity.
Defined.

(** X17 at a hidden channel of a guild without [me], and at an open one. *)
Lemma extend_characterised_witness :
  ChannelExtendable.extend nat openChannel = inr true
  /\ ~ (exists t, ChannelExtendable.extend nat hiddenChannel = inl t).
Proof.
  split.
  - destruct (extend_characterised nat openChannel) as (Hiff & _).
    apply Hiff. right. eexists. eexists. split_and!; reflexivity.
  - destruct (extend_characterised nat hiddenChannel) as (_ & Hiff).
    intros Hthrows. apply Hiff in Hthrows as (me & _ & Hreadable & _). discriminate Hreadable.
Defined.

(** * The definition file as fs-nextra writes it *)

Section Healing.

Variable newSchemaFolder : JSValue -> Exn + SchemaFolder.t.
Context {W : Type} (handle : W -> IOCall -> W * Settled) (client : KlasaClient).




End Healing.

Section OnSerialisingDisk.

Variable newSchemaFolder : JSValue -> Exn + SchemaFolder.t.
Variable client : KlasaClient.

#[local] Arguments settle : simpl never.

Lemma initTable_settleJSON w g :
  run settleJSON client initTable w g = run settle client initTable w g.
Proof.
  unfold_methods. cbn. destruct (provider client g) eqn:Hp; cbn; [|done].
  destruct (settle w (HasTable _ (type g))) as [w1 [e|v]]; cbn; [done|].
  destruct (truthy v); cbn; [done|]. rewrite Hp. cbn.
  destruct (sqlSchema g); cbn; [done|]. by destruct (settle w1 _) as [w2 [e|u]].
Qed.





End OnSerialisingDisk.

Section Bridge.
Variable newSchemaFolder : JSValue -> Exn + SchemaFolder.t.
Variable client : KlasaClient.
#[local] Arguments settle : simpl never.
#[local] Arguments provider : simpl never.
#[local] Arguments sqlSchema : simpl never.

Lemma settle_write w path v :
  settle w (OutputJSONAtomic path v)
  = if readOnly w then (w, inl (External "EROFS: read-only file system, open"))
    else (with_file path (Parsable v) w, inr JUndefined).
Proof. done. Qed.

(** Split on the next test a method body or the disk makes. *)
Ltac branch_disk :=
  match goal with
  | |- context [match newSchemaFolder ?d with inl _ => _ | inr _ => _ end] =>
      destruct (newSchemaFolder d) eqn:?
  | |- context [match provider client ?g with Some _ => _ | None => _ end] =>
      destruct (provider client g) eqn:?
  | |- context [if truthy ?v then _ else _] => destruct (truthy v) eqn:?
  | |- context [match sqlSchema ?g with inl _ => _ | inr _ => _ end] =>
      destruct (sqlSchema g) eqn:?
  | |- context [if ready ?g then _ else _] => destruct (ready g) eqn:?
  | |- context [if readOnly ?w then _ else _] => destruct (readOnly w) eqn:?
  end.

(** For a default that JSON represents as it is, [init] runs on the
    serialising environment exactly as on [settle]. *)
Lemma settleJSON_exact_default ds w g :
  persisted ds = Parsable ds ->
  run settleJSON client (init newSchemaFolder ds) w g
  = run settle client (init newSchemaFolder ds) w g.
Proof.
  intros Hexact. unfold_methods.
  repeat (cbn; first [ rewrite settle_write, Hexact | branch_disk | settle_next settle ]).
  all: by cbn.
Qed.
End Bridge.

Section SerialisedDefinition.

Variable newSchemaFolder : JSValue -> Exn + SchemaFolder.t.

#[local] Arguments settle : simpl never.



Section Restarting.

Variable client : KlasaClient.

Lemma initSchema_resolved_on_serialising_disk ds w g s :
  let o := run settleJSON client (initSchema newSchemaFolder ds) w g in
  result o = inr s ->
  ((exists v, files w !! filePath g = Some (Parsable v)) \/ persisted ds = Parsable ds) ->
  baseDir g ∈ dirs (world o)
  /\ exists v, files (world o) !! filePath g = Some (Parsable v) /\ newSchemaFolder v = inr s.
Proof.
  intros o. subst o. unfold_methods. cbn.
  destruct (settle_ensureDir w (baseDir g)) as (Hfiles & Hro & _ & Hdir).
  destruct (settle w (EnsureDir (baseDir g))) as [w1 [e|u]] eqn:E1; cbn in *; [done|].
  specialize (Hdir u eq_refl).
  assert (Hread : settle w1 (ReadJSON (filePath g))
    = match files w1 !! filePath g with
      | Some (Parsable v) => (w1, inr v)
      | Some (Unparsable _) => (w1, inl (External "SyntaxError: Unexpected token in JSON"))
      | None => (w1, inl (External "ENOENT: no such file or directory, open"))
      end) by done.
  rewrite Hread, Hfiles.
  destruct (files w !! filePath g) as [[v|text]|] eqn:Hfile; cbn.
  - destruct (newSchemaFolder v) eqn:Hnew; cbn; [done|]. intros [= <-] _.
    split; [done|]. exists v. by rewrite Hfiles.
  - destruct (readOnly w1); cbn; [done|].
    destruct (newSchemaFolder ds) eqn:Hnew; cbn; [done|]. intros [= <-] [[v [=]] | Hexact].
    split; [done|]. exists ds. rewrite Hexact. split; [apply lookup_insert_eq | done].
  - destruct (readOnly w1); cbn; [done|].
    destruct (newSchemaFolder ds) eqn:Hnew; cbn; [done|]. intros [= <-] [[v [=]] | Hexact].
    split; [done|]. exists ds. rewrite Hexact. split; [apply lookup_insert_eq | done].
Qed.

(** X13.  On the reference file system and backend, once [init] has
    resolved for a gateway whose definition file was already there or whose
    default is one that JSON represents as it is, the [init] of a new instance
    of the same gateway on the disk and backend it left (a restart), with
    whatever default, resolves with the same schema tree, writes no file,
    creates no table and leaves disk and backend as they were. *)
Theorem restart_loads_persisted_definition ds ds' w g :
  ready g = false ->
  let first := run settleJSON client (init newSchemaFolder ds) w g in
  let second := run settleJSON client (init newSchemaFolder ds') (world first) g in
  result first = inr tt ->
  ((exists v, files w !! filePath g = Some (Parsable v)) \/ persisted ds = Parsable ds) ->
  result second = inr tt
  /\ schema (gateway second) = schema (gateway first)
  /\ world second = world first
  /\ fileWrites (trace second) = 0
  /\ createTableCalls (trace second) = 0.
Proof.
  intros Hg first second Hfirst Hkept. subst second.
  assert (Hphase : exists s,
    result (run settleJSON client (initSchema newSchemaFolder ds) w (set_ready true g)) = inr s).
  { subst first. rewrite init_when_fresh in Hfirst by done. unfold sequel in Hfirst.
    destruct (result (run settleJSON client (initSchema newSchemaFolder ds) w
                        (set_ready true g)));
      [done | eauto]. }
  destruct Hphase as [s Hs].
  pose proof (init_after_schema_success newSchemaFolder settleJSON client ds w g s Hg Hs) as Heq.
  cbv zeta in Heq. fold first in Heq.
  destruct (initSchema_resolved_on_serialising_disk ds w (set_ready true g) s Hs Hkept)
    as (Hdir & v & Hfile & Hnew).
  cbn [baseDir filePath set_ready] in Hdir, Hfile.
  set (w1 := world (run settleJSON client (initSchema newSchemaFolder ds) w
                      (set_ready true g))) in *.
  rewrite initTable_settleJSON in Heq.
  assert (Htable : result (run settle client initTable w1 (set_schema s (set_ready true g)))
                   = inr tt).
  { rewrite Heq in Hfirst. exact Hfirst. }
  destruct (initTable_resolved_on_disk client w1 _ Htable)
    as (Hfiles & Hdirs & p & tables & Hp & Hstore & Htables).
  cbn [type set_schema set_ready] in Htables.
  assert (Hworld : world first
                   = world (run settle client initTable w1 (set_schema s (set_ready true g))))
    by (by rewrite Heq).
  assert (Hgw : gateway first = set_schema s (set_ready true g)) by (by rewrite Heq).
  rewrite <- Hworld in Hfiles, Hdirs, Hstore.
  set (w2 := world first) in *.
  assert (Hensure : settleJSON w2 (EnsureDir (baseDir g)) = (w2, inr JUndefined)).
  { cbn. apply settle_ensureDir_present. by rewrite Hdirs. }
  assert (Hread : settleJSON w2 (ReadJSON (filePath g)) = (w2, inr v)).
  { cbn. unfold settle. by rewrite Hfiles, Hfile. }
  assert (Hasked : settleJSON w2 (HasTable p (type g)) = (w2, inr (JBool true))).
  { cbn. unfold settle. rewrite Hstore. by rewrite bool_decide_eq_true_2. }
  pose proof (run_initSchema_loaded newSchemaFolder settleJSON client ds' w2 (set_ready true g)
                w2 JUndefined w2 v Hensure Hread) as Hphase2.
  cbv zeta in Hphase2. rewrite Hnew in Hphase2.
  assert (Hs2 : result (run settleJSON client (initSchema newSchemaFolder ds') w2
                          (set_ready true g))
                = inr s)
    by (by rewrite Hphase2).
  rewrite (init_after_schema_success newSchemaFolder settleJSON client ds' w2 g s Hg Hs2).
  rewrite Hphase2. cbn [world trace].
  rewrite (run_initTable settleJSON client w2 _ p s Hp eq_refl).
  cbn [type set_schema set_ready]. rewrite Hasked. cbn [fst snd truthy].
  cbn [world gateway trace result schema set_schema]. rewrite Hgw.
  split_and!; done.
Qed.

End Restarting.

End SerialisedDefinition.

(** ** The serialising environment at the scenarios *)



(** X13 at the first boot, restarted with an empty default. *)
Lemma restart_loads_persisted_definition_witness :
  result (run settleJSON client (init SchemaFolder.build (JObj []))
            (world (bootJSON firstBoot guilds)) guilds) = inr tt
  /\ schema (gateway (run settleJSON client (init SchemaFolder.build (JObj []))
                        (world (bootJSON firstBoot guilds)) guilds))
     = schema (gateway (bootJSON firstBoot guilds))
  /\ world (run settleJSON client (init SchemaFolder.build (JObj []))
              (world (bootJSON firstBoot guilds)) guilds)
     = world (bootJSON firstBoot guilds).
Proof.
  assert (Hresolved : result (bootJSON firstBoot guilds) = inr tt) by (vm_compute; reflexivity).
  assert (Hexact : persisted defaultSchema = Parsable defaultSchema)
    by (vm_compute; reflexivity).
  destruct (restart_loads_persisted_definition SchemaFolder.build client defaultSchema (JObj [])
              firstBoot guilds eq_refl Hresolved (or_intror Hexact))
    as (Hres & Hschema & Hworld & _).
  split_and!; [exact Hres | exact Hschema | exact Hworld].
Defined.

(** A default with an undefined value is not what its file reads back as:
    the first boot builds the piece with default undefined, the file holds the
    definition without that key, and a restart builds the piece with default
    null. *)
Example lossy_default_reads_back_different :
  let first := run settleJSON client (init SchemaFolder.build lossySchema) firstBoot guilds in
  let second := run settleJSON client (init SchemaFolder.build lossySchema) (world first) guilds in
  schema (gateway first) = Some [("prefix", SchemaFolder.Piece "string" JUndefined "string")]
  /\ files (world first) !! filePath guilds
     = Some (Parsable (JObj [("prefix", JObj [("type", JStr "string")])]))
  /\ schema (gateway second) = Some [("prefix", SchemaFolder.Piece "string" JNull "string")]
  /\ fileWrites (trace second) = 0.
Proof. vm_compute. split_and!; reflexivity. Qed.
